(** * js.c: the bare-metal host of an embedded JavaScript engine

    A shallow embedding of [js.c]: the host bridge functions ([js_print],
    [js_date_now], [js_performance_now], [js_gc], [js_load],
    [js_setTimeout], [js_clearTimeout]), the driver [main], the embedded
    script [js_code] and the heap stub [_sbrk].

    The engine (mquickjs) and the UART driver are not part of the source
    set.  The engine is an interface ([Engine]) whose operations are the
    functions [js.c] calls, and what [js.c] does is proved for an
    arbitrary engine; a reference engine ([Mock]) gives the concrete runs
    and the account of the buffers taken from the arena.  The allocator of
    the engine is not in the source set either: [Memory] has the arena
    and the heap behind [_sbrk] as the spec describes them.  Native code runs
    in a small monad that threads the engine context, may fault on an
    out-of-range read of [argv], and records each call that leaves [js.c]
    (UART writes, engine calls, reads of [argv]) in a trace. *)

From Stdlib Require Import ZArith List String Ascii Bool Lia Sorted DecimalString.
Import ListNotations.

Local Open Scope string_scope.
Local Open Scope list_scope.
Local Open Scope Z_scope.

(** ** Characters and strings of the C source *)

(** ['\n'] *)
Definition LF : ascii := ascii_of_nat 10.
(** [' '] *)
Definition SP : ascii := ascii_of_nat 32.
(** the double quote, for the quoted literals inside [js_code] *)
Definition DQ : ascii := ascii_of_nat 34.

Definition chr (c : ascii) : string := String c EmptyString.

(** [strlen] *)
Definition strlen (s : string) : Z := Z.of_nat (String.length s).

(** ** Tagged values *)

(** Modelled from the spec: [JSValue] of mquickjs.h, which is not in the
    source set.  "A discriminated union representing script-level values
    passed across the Host Bridge boundary": undefined, booleans, 32-bit
    integers, strings, the exception marker, and references to objects
    of the engine. *)
Inductive JSValue : Type :=
| JS_UNDEFINED
| JS_NULL
| JS_EXCEPTION
| JS_Bool (b : bool)
| JS_Int (n : Z)
| JS_String (s : string)
| JS_Object (ref : nat).

(** Modelled from the spec: [is_exception(tagged_value) -> bool]. *)
Definition JS_IsException (v : JSValue) : bool :=
  match v with
  | JS_EXCEPTION => true
  | _ => false
  end.

(** "Number(32-bit integer ...)": the values a clock stub can return. *)
Definition is_number (v : JSValue) : bool :=
  match v with
  | JS_Int _ => true
  | _ => false
  end.

Definition number_of (v : JSValue) : option Z :=
  match v with
  | JS_Int n => Some n
  | _ => None
  end.

(** ** The static arena *)

(** [static uint8_t js_memory[JS_MEMORY_SIZE]]: the contents belong to the
    engine, the host only knows the extent. *)
Record StaticBuffer : Type := { capacity : Z }.

Definition sizeof (b : StaticBuffer) : Z := capacity b.

Definition JS_MEMORY_SIZE : Z := 64 * 1024.

Definition js_memory : StaticBuffer := {| capacity := JS_MEMORY_SIZE |}.

(** ** Traces *)

(** Every call that leaves [js.c], and every read of an [argv] slot. *)
Inductive Event : Type :=
| Ev_uart_putc (c : ascii)
| Ev_uart_puts (s : string)
| Ev_argv (i : Z)
| Ev_JS_NewContext (mem : StaticBuffer) (mem_size : Z)
| Ev_JS_Eval (input : string) (input_len : Z) (filename : string) (eval_flags : Z)
| Ev_JS_GetException
| Ev_JS_ToCString (v : JSValue)
| Ev_JS_GC
| Ev_JS_ThrowInternalError (msg : string)
| Ev_JS_FreeContext.

(** The bytes a trace puts on the UART, in order. *)
Fixpoint uart_output (t : list Event) : string :=
  match t with
  | [] => ""
  | Ev_uart_putc c :: t' => String c (uart_output t')
  | Ev_uart_puts s :: t' => (s ++ uart_output t')%string
  | _ :: t' => uart_output t'
  end.

(** The [argv] slots a trace reads, in order. *)
Fixpoint argv_reads (t : list Event) : list Z :=
  match t with
  | [] => []
  | Ev_argv i :: t' => i :: argv_reads t'
  | _ :: t' => argv_reads t'
  end.

(** ** The monad of native code *)

(** A computation takes the engine context and faults ([None]) or returns
    a value, the new context and the trace it produced. *)
Definition M (C A : Type) : Type := C -> option (A * C * list Event).

Definition ret {C A : Type} (a : A) : M C A :=
  fun c => Some (a, c, []).

Definition bind {C A B : Type} (m : M C A) (f : A -> M C B) : M C B :=
  fun c =>
    match m c with
    | None => None
    | Some (a, c1, t1) =>
        match f a c1 with
        | None => None
        | Some (b, c2, t2) => Some (b, c2, t1 ++ t2)
        end
    end.

Definition emit {C : Type} (e : Event) : M C unit :=
  fun c => Some (tt, c, [e]).

Declare Scope native_scope.
Delimit Scope native_scope with native.
Notation "x <- m ;; k" := (bind m (fun x => k))
  (at level 61, m at next level, right associativity) : native_scope.
Notation "m ;; k" := (bind m (fun _ => k))
  (at level 61, right associativity) : native_scope.
Local Open Scope native_scope.

(** [for (int i = lo; i < hi; i++) body(i)]: [n] iterations from [i]. *)
Fixpoint for_loop {C : Type} (n : nat) (i : Z) (body : Z -> M C unit) : M C unit :=
  match n with
  | O => ret tt
  | S k => body i ;; for_loop k (i + 1) body
  end.

Definition for_int {C : Type} (lo hi : Z) (body : Z -> M C unit) : M C unit :=
  for_loop (Z.to_nat (hi - lo)) lo body.

(** [argv[i]]: a read outside the array the engine passed is a fault. *)
Definition argv_get {C : Type} (argv : list JSValue) (i : Z) : M C JSValue :=
  fun c =>
    if i <? 0 then None
    else match nth_error argv (Z.to_nat i) with
         | Some v => Some (v, c, [Ev_argv i])
         | None => None
         end.

(** ** The byte device *)

(** Modelled from the spec: uart.h, which is not in the source set.
    "[write(bytes)] and [write_char(byte)] forward to the underlying
    byte-output device". *)
Definition uart_putc {C : Type} (c : ascii) : M C unit := emit (Ev_uart_putc c).
Definition uart_puts {C : Type} (s : string) : M C unit := emit (Ev_uart_puts s).

(** ** Native functions and their table *)

(** The signature of a native function: [(ctx, this_val, argc, argv)],
    the context being the state of the monad. *)
Definition JSCFunction (C : Type) : Type :=
  JSValue -> Z -> list JSValue -> M C JSValue.

(** Modelled from the spec: the table [js_stdlib] of mqjs_stdlib.h, which
    is not in the source set: "a named mapping from identifier to a native
    function pointer of a fixed signature".  The seven entries are the
    functions [js.c] declares for it. *)
Record JSSTDLibraryDef (C : Type) : Type := {
  stdlib_print : JSCFunction C;
  stdlib_date_now : JSCFunction C;
  stdlib_performance_now : JSCFunction C;
  stdlib_gc : JSCFunction C;
  stdlib_load : JSCFunction C;
  stdlib_setTimeout : JSCFunction C;
  stdlib_clearTimeout : JSCFunction C
}.
Arguments stdlib_print {C}.
Arguments stdlib_date_now {C}.
Arguments stdlib_performance_now {C}.
Arguments stdlib_gc {C}.
Arguments stdlib_load {C}.
Arguments stdlib_setTimeout {C}.
Arguments stdlib_clearTimeout {C}.

(** ** The embedded script (js.c, lines 123 to 132) *)

Definition js_code : string :=
  ("var msg = " ++ chr DQ ++ "Hello from JS!" ++ chr DQ ++ ";" ++ chr LF ++
   "for (var i = 0; i < 10; i++) {" ++ chr LF ++
   "    var iteration_message = " ++ chr DQ ++ chr DQ ++ ";" ++ chr LF ++
   "    for (var j = 0; j < i; j++) { iteration_message += msg; }" ++ chr LF ++
   "    iteration_message += " ++ chr DQ ++ "\n" ++ chr DQ ++ ";" ++ chr LF ++
   "    print(iteration_message);" ++
   "}" ++ chr LF ++
   "var successMessage = " ++ chr DQ ++ "Successful JavaScript!\n" ++ chr DQ ++ ";" ++ chr LF ++
   "print(successMessage);")%string.

(** A call of a global native function from script: the arguments fill an
    array of exactly [argc] slots and the receiver is undefined. *)
Definition js_call {C : Type} (f : JSCFunction C) (args : list JSValue)
  : M C JSValue :=
  f JS_UNDEFINED (Z.of_nat (List.length args)) args.

(** A script-level [for] whose body is one call: a value tagged as an
    exception ends the loop, and the script, at the call site. *)
Fixpoint js_for {C : Type} (n : nat) (i : Z) (body : Z -> M C JSValue)
  : M C JSValue :=
  match n with
  | O => ret JS_UNDEFINED
  | S k => r <- body i ;;
           if JS_IsException r then ret r else js_for k (i + 1) body
  end.

(** [for (var j = 0; j < i; j++) { iteration_message += msg; }] *)
Fixpoint js_append_loop (n : nat) (iteration_message msg : string) : string :=
  match n with
  | O => iteration_message
  | S k => js_append_loop k (iteration_message ++ msg)%string msg
  end.

(** The script of [js_code], statement by statement, with [print] bound
    to the entry of the table. *)
Definition js_code_run {C : Type} (std : JSSTDLibraryDef C) : M C JSValue :=
  let msg := "Hello from JS!" in
  r <- js_for (Z.to_nat (10 - 0)) 0 (fun i =>
         let iteration_message := "" in
         let iteration_message :=
           js_append_loop (Z.to_nat (i - 0)) iteration_message msg in
         let iteration_message := (iteration_message ++ chr LF)%string in
         js_call (stdlib_print std) [JS_String iteration_message]) ;;
  if JS_IsException r then ret r
  else
    let successMessage := ("Successful JavaScript!" ++ chr LF)%string in
    js_call (stdlib_print std) [JS_String successMessage].

(** ** The engine *)

(** The functions of mquickjs.h that [js.c] calls.  A C string returned by
    the engine is kept as the bytes before its terminator; [None] is the
    null pointer.  The table handed to [JS_NewContext] is the one the
    engine dispatches through during [JS_Eval], so the model hands it to
    [engine_Eval]. *)
Class Engine : Type := {
  JSContext : Type;
  engine_NewContext : StaticBuffer -> Z -> option JSContext;
  engine_Eval : JSSTDLibraryDef JSContext -> string -> Z -> string -> Z ->
                M JSContext JSValue;
  engine_GetException : JSContext -> JSValue * JSContext;
  engine_ToCString : JSContext -> JSValue -> option string * JSContext;
  engine_GC : JSContext -> JSContext;
  engine_ThrowInternalError : JSContext -> string -> JSValue * JSContext
}.

(** What the spec promises of any engine and the host relies on. *)
Class EngineLaws (E : Engine) : Prop := {
  (** "a value tagged as an exception ... propagates as a script-level
      throw at the call site" *)
  ThrowInternalError_exception :
    forall c msg, JS_IsException (fst (engine_ThrowInternalError c msg)) = true;
  (** "If the value is a string, return its content" *)
  ToCString_string :
    forall c s, fst (engine_ToCString c (JS_String s)) = Some s
}.

Section Host.

Context {E : Engine}.

(** *** Engine calls, as native code sees them *)

Definition JS_ToCString (v : JSValue) : M JSContext (option string) :=
  fun c => let (r, c') := engine_ToCString c v in
           Some (r, c', [Ev_JS_ToCString v]).

Definition JS_GC : M JSContext unit :=
  fun c => Some (tt, engine_GC c, [Ev_JS_GC]).

Definition JS_ThrowInternalError (msg : string) : M JSContext JSValue :=
  fun c => let (v, c') := engine_ThrowInternalError c msg in
           Some (v, c', [Ev_JS_ThrowInternalError msg]).

Definition JS_GetException : M JSContext JSValue :=
  fun c => let (v, c') := engine_GetException c in
           Some (v, c', [Ev_JS_GetException]).

Definition JS_Eval (std : JSSTDLibraryDef JSContext)
    (input : string) (input_len : Z) (filename : string) (eval_flags : Z)
  : M JSContext JSValue :=
  emit (Ev_JS_Eval input input_len filename eval_flags) ;;
  engine_Eval std input input_len filename eval_flags.

(** Modelled from the spec: [JS_NewInt32] of mquickjs.h, which is not in
    the source set; a 32-bit integer becomes the Number value holding
    it. *)
Definition JS_NewInt32 (v : Z) : M JSContext JSValue := ret (JS_Int v).

(** *** The host bridge (js.c, lines 29 to 108) *)

(** The body of the loop of [js_print], at index [i]. *)
Definition js_print_arg (argv : list JSValue) (i : Z) : M JSContext unit :=
  (if negb (i =? 0) then uart_putc SP else ret tt) ;;
  arg <- argv_get argv i ;;
  str <- JS_ToCString arg ;;
  match str with
  | Some s => uart_puts s
  | None => ret tt
  end.

Definition js_print : JSCFunction JSContext :=
  fun this_val argc argv =>
    for_int 0 argc (js_print_arg argv) ;;
    uart_putc LF ;;
    ret JS_UNDEFINED.

Definition js_date_now : JSCFunction JSContext :=
  fun this_val argc argv => JS_NewInt32 0.

Definition js_performance_now : JSCFunction JSContext :=
  fun this_val argc argv => JS_NewInt32 0.

Definition js_gc : JSCFunction JSContext :=
  fun this_val argc argv => JS_GC ;; ret JS_UNDEFINED.

Definition js_load : JSCFunction JSContext :=
  fun this_val argc argv => JS_ThrowInternalError "load not implemented".

Definition js_setTimeout : JSCFunction JSContext :=
  fun this_val argc argv => JS_NewInt32 0.

Definition js_clearTimeout : JSCFunction JSContext :=
  fun this_val argc argv => ret JS_UNDEFINED.

Definition js_stdlib : JSSTDLibraryDef JSContext := {|
  stdlib_print := js_print;
  stdlib_date_now := js_date_now;
  stdlib_performance_now := js_performance_now;
  stdlib_gc := js_gc;
  stdlib_load := js_load;
  stdlib_setTimeout := js_setTimeout;
  stdlib_clearTimeout := js_clearTimeout
|}.

(** The names of the seven bridge functions. *)
Inductive HostFunction : Type :=
| H_print | H_date_now | H_performance_now | H_gc | H_load
| H_setTimeout | H_clearTimeout.

Definition host_function (h : HostFunction) : JSCFunction JSContext :=
  match h with
  | H_print => stdlib_print js_stdlib
  | H_date_now => stdlib_date_now js_stdlib
  | H_performance_now => stdlib_performance_now js_stdlib
  | H_gc => stdlib_gc js_stdlib
  | H_load => stdlib_load js_stdlib
  | H_setTimeout => stdlib_setTimeout js_stdlib
  | H_clearTimeout => stdlib_clearTimeout js_stdlib
  end.

(** *** The driver (js.c, lines 110 to 160) *)

(** [main] between [JS_NewContext] and [JS_FreeContext]. *)
Definition main_eval : M JSContext unit :=
  result <- JS_Eval js_stdlib js_code (strlen js_code) "<input>" 0 ;;
  if JS_IsException result then
    uart_puts "JS Exception: " ;;
    exception <- JS_GetException ;;
    str <- JS_ToCString exception ;;
    match str with
    | Some s => uart_puts s
    | None => ret tt
    end ;;
    uart_putc LF
  else
    str <- JS_ToCString result ;;
    match str with
    | Some s => uart_puts "Result: " ;; uart_puts s ;; uart_putc LF
    | None => ret tt
    end.

(** The exit status and the trace of the whole run; [None] when native
    code faulted under the engine. *)
Definition main : option (Z * list Event) :=
  match engine_NewContext js_memory (sizeof js_memory) with
  | None =>
      Some (1, [Ev_JS_NewContext js_memory (sizeof js_memory);
                Ev_uart_puts ("Failed to create JS context" ++ chr LF)%string])
  | Some ctx =>
      match main_eval ctx with
      | None => None
      | Some (_, _, t) =>
          Some (0, Ev_JS_NewContext js_memory (sizeof js_memory)
                     :: t ++ [Ev_JS_FreeContext])
      end
  end.

Definition exit_status (r : option (Z * list Event)) : option Z :=
  option_map fst r.

(** *** Sequences of bridge calls *)

(** One call of a bridge function by the engine. *)
Record Call : Type := {
  call_fn : HostFunction;
  call_this : JSValue;
  call_argc : Z;
  call_argv : list JSValue
}.

(** The engine passes an array that holds the [argc] arguments. *)
Definition well_formed (k : Call) : Prop :=
  0 <= call_argc k /\ (Z.to_nat (call_argc k) <= List.length (call_argv k))%nat.

(** The calls in order, within one context, each with its result. *)
Fixpoint run_calls (calls : list Call)
  : M JSContext (list (HostFunction * JSValue)) :=
  match calls with
  | [] => ret []
  | k :: rest =>
      r <- host_function (call_fn k) (call_this k) (call_argc k) (call_argv k) ;;
      rs <- run_calls rest ;;
      ret ((call_fn k, r) :: rs)
  end.

Definition is_clock (h : HostFunction) : bool :=
  match h with
  | H_date_now | H_performance_now => true
  | _ => false
  end.

(** The values the clock functions returned, in call order. *)
Definition timestamps (rs : list (HostFunction * JSValue)) : list JSValue :=
  map snd (filter (fun p => is_clock (fst p)) rs).

(** *** What a call of [js_print] amounts to *)

(** The results of converting the values in order, the context threaded
    from one conversion to the next. *)
Fixpoint to_cstrings (c : JSContext) (args : list JSValue) : list (option string) :=
  match args with
  | [] => []
  | v :: rest =>
      let (r, c1) := engine_ToCString c v in r :: to_cstrings c1 rest
  end.

(** The context the conversions leave. *)
Fixpoint after_conversions (c : JSContext) (args : list JSValue) : JSContext :=
  match args with
  | [] => c
  | v :: rest => after_conversions (snd (engine_ToCString c v)) rest
  end.

(** The trace of the loop of [js_print] over the slots [k], [k + 1], ...
    holding [args]. *)
Fixpoint print_trace (k : nat) (c : JSContext) (args : list JSValue) : list Event :=
  match args with
  | [] => []
  | v :: rest =>
      let (r, c1) := engine_ToCString c v in
      match k with O => [] | S _ => [Ev_uart_putc SP] end
      ++ [Ev_argv (Z.of_nat k); Ev_JS_ToCString v]
      ++ match r with Some s => [Ev_uart_puts s] | None => [] end
      ++ print_trace (S k) c1 rest
  end.

(** *** The exit status as the spec words it *)

(** "Exit status reflects whether an exception occurred": 1 when the
    context cannot be created, 0 when the evaluation ends normally, and a
    status other than 0 when it ends in an uncaught exception. *)
Definition exit_status_reflects_exception : Prop :=
  (engine_NewContext js_memory (sizeof js_memory) = None ->
   exit_status main = Some 1) /\
  (forall ctx result c' t,
     engine_NewContext js_memory (sizeof js_memory) = Some ctx ->
     JS_Eval js_stdlib js_code (strlen js_code) "<input>" 0 ctx
       = Some (result, c', t) ->
     if JS_IsException result
     then exists status, exit_status main = Some status /\ status <> 0
     else exit_status main = Some 0).

End Host.

(** ** The heap stub (js.c, lines 162 to 164) *)

(** [(void* ) -1], kept as the integer the pointer is cast from. *)
Definition SBRK_FAILED : Z := -1.

Definition _sbrk (incr : Z) : Z := SBRK_FAILED.

(** ** The output of the demo *)

Fixpoint repeat_string (s : string) (n : nat) : string :=
  match n with
  | O => ""
  | S k => (s ++ repeat_string s k)%string
  end.

Fixpoint concat_strings (l : list string) : string :=
  match l with
  | [] => ""
  | s :: rest => (s ++ concat_strings rest)%string
  end.

(** What one [print] of a message that ends in its own newline puts on
    the UART: the message, newline included, and the newline of
    [print]. *)
Definition printed_line (message : string) : string :=
  ((message ++ chr LF) ++ chr LF)%string.

(** The lines for [i] from 0 to 9, then the final line. *)
Definition demo_stream : string :=
  (concat_strings
     (map (fun i => printed_line (repeat_string "Hello from JS!" i))
          (seq 0 10))
   ++ printed_line "Successful JavaScript!")%string.

(** ** The memory the engine can turn to *)

(** Modelled from the spec: the Arena Allocator and the general-purpose
    heap; the allocator of the engine is not in the source set.  "Arena:
    a single contiguous byte region of fixed capacity C ... total bytes
    ever carved out of the arena <= C; no region is returned to a
    free-list (bump-style allocation is acceptable)"; a request the arena
    cannot hold is refused, which the engine surfaces as [OutOfMemory].
    The heap is the one a C library grows through [_sbrk]: a request to
    it is granted when [_sbrk] returns a break and refused when [_sbrk]
    returns [(void* ) -1]. *)
Inductive Source : Type := FromArena | FromHeap.

Record Memory : Type := {
  arena_capacity : Z;
  arena_carved : Z;
  heap_obtained : Z
}.

(** Modelled from the spec: what a request gets, [size] bytes at
    [offset] of the source, or nothing. *)
Inductive Grant : Type :=
| Granted (src : Source) (offset size : Z)
| Refused.

(** Modelled from the spec: the memory of a context created over the
    [size] bytes at [mem], none of them carved out yet. *)
Definition create_memory (mem : StaticBuffer) (size : Z) : Memory :=
  {| arena_capacity := size; arena_carved := 0; heap_obtained := 0 |}.

(** Modelled from the spec: one allocation request of [n] bytes,
    addressed to [src].  The arena grants the next [n] bytes when it has
    them; the heap grants what [_sbrk] returns, when it returns a
    break. *)
Definition request (src : Source) (n : Z) (m : Memory) : Grant * Memory :=
  match src with
  | FromArena =>
      if (0 <=? n) && (arena_carved m + n <=? arena_capacity m) then
        (Granted FromArena (arena_carved m) n,
         {| arena_capacity := arena_capacity m;
            arena_carved := arena_carved m + n;
            heap_obtained := heap_obtained m |})
      else (Refused, m)
  | FromHeap =>
      let brk := _sbrk n in
      if brk =? SBRK_FAILED then (Refused, m)
      else (Granted FromHeap brk n,
            {| arena_capacity := arena_capacity m;
               arena_carved := arena_carved m;
               heap_obtained := heap_obtained m + n |})
  end.

(** Modelled from the spec: the requests of a context's lifetime, in
    order. *)
Fixpoint serve (reqs : list (Source * Z)) (m : Memory) : list Grant * Memory :=
  match reqs with
  | [] => ([], m)
  | (src, n) :: rest =>
      let (g, m1) := request src n m in
      let (gs, m2) := serve rest m1 in
      (g :: gs, m2)
  end.

(** A grant that lies inside an arena of [size] bytes. *)
Definition in_arena (size : Z) (g : Grant) : Prop :=
  match g with
  | Granted FromArena offset n => 0 <= offset /\ 0 <= n /\ offset + n <= size
  | Granted FromHeap _ _ => False
  | Refused => True
  end.

(** The regions granted, as offset and size, in order. *)
Fixpoint regions (gs : list Grant) : list (Z * Z) :=
  match gs with
  | [] => []
  | Granted _ offset n :: rest => (offset, n) :: regions rest
  | Refused :: rest => regions rest
  end.

(** The first region ends where the second begins, or before. *)
Definition before (a b : Z * Z) : Prop := fst a + snd a <= fst b.

(** ** A reference engine *)

(** Modelled from the spec: an engine within the interface, which is
    not in the source set, as far as the spec and the excerpt of
    [JS_ToCStringLen] quoted in [js_print] describe one.  The context is
    created over an arena that must hold the bootstrap state; evaluation
    fails with an out-of-memory exception when the arena has no room for
    the script; there is one pending-exception slot; a conversion to a C
    string returns a string the engine holds already for a string value
    and for undefined, null and the booleans, uses the caller's
    [JSCStringBuf] when the text is short, and otherwise asks the arena
    for a buffer with [js_malloc] and returns the null pointer when the
    arena refuses.  No operation of the interface gives a buffer back. *)
Module Mock.

Record Config : Type := {
  bootstrap_need : Z;
  script_need : Z;
  cstring_buf : nat
}.

Record Context : Type := {
  arena : Memory;
  objects : list string;
  exception : JSValue;
  cstrings : list string
}.

(** [js_malloc(ctx, n)]: [n] bytes of the arena, or nothing when the
    arena cannot hold them. *)
Definition js_malloc (n : Z) (c : Context) : option Context :=
  match request FromArena n (arena c) with
  | (Granted _ _ _, m) =>
      Some {| arena := m; objects := objects c; exception := exception c;
              cstrings := cstrings c |}
  | (Refused, _) => None
  end.

Definition new_context (cfg : Config) (mem : StaticBuffer) (size : Z)
  : option Context :=
  match request FromArena (bootstrap_need cfg) (create_memory mem size) with
  | (Granted _ _ _, m) =>
      Some {| arena := m; objects := []; exception := JS_NULL;
              cstrings := [] |}
  | (Refused, _) => None
  end.

(** Raising an error: the error object is created in the arena and put in
    the exception slot, which holds null when the arena has no room for
    the object; the caller gets the exception marker. *)
Definition throw (c : Context) (text : string) : JSValue * Context :=
  match js_malloc (strlen text + 1) c with
  | Some c1 =>
      (JS_EXCEPTION,
       {| arena := arena c1;
          objects := objects c ++ [text];
          exception := JS_Object (List.length (objects c));
          cstrings := cstrings c |})
  | None =>
      (JS_EXCEPTION,
       {| arena := arena c; objects := objects c; exception := JS_NULL;
          cstrings := cstrings c |})
  end.

Definition throw_internal_error (c : Context) (msg : string)
  : JSValue * Context :=
  throw c ("InternalError: " ++ msg)%string.

Definition get_exception (c : Context) : JSValue * Context :=
  (exception c,
   {| arena := arena c; objects := objects c; exception := JS_NULL;
      cstrings := cstrings c |}).

(** [if (len <= sizeof(buf->buf) - 1) return buf->buf;] and otherwise
    [js_malloc(ctx, len + 1)], the null pointer when that fails. *)
Definition cstring_of_text (cfg : Config) (c : Context) (text : string)
  : option string * Context :=
  if (String.length text <=? cstring_buf cfg - 1)%nat then (Some text, c)
  else
    match js_malloc (strlen text + 1) c with
    | Some c1 =>
        (Some text,
         {| arena := arena c1; objects := objects c;
            exception := exception c; cstrings := text :: cstrings c |})
    | None => (None, c)
    end.

Definition text_of_int (n : Z) : string := NilZero.string_of_int (Z.to_int n).

Definition to_cstring (cfg : Config) (c : Context) (v : JSValue)
  : option string * Context :=
  match v with
  | JS_String s => (Some s, c)
  | JS_UNDEFINED => (Some "undefined", c)
  | JS_NULL => (Some "null", c)
  | JS_Bool true => (Some "true", c)
  | JS_Bool false => (Some "false", c)
  | JS_Int n => cstring_of_text cfg c (text_of_int n)
  | JS_Object ref =>
      match nth_error (objects c) ref with
      | Some text => cstring_of_text cfg c text
      | None => (None, snd (throw c "TypeError: not an object"))
      end
  | JS_EXCEPTION => (None, c)
  end.

(** Evaluation: out of memory when the arena has no room for the script,
    the embedded script when that is the input, a syntax error
    otherwise. *)
Definition eval (cfg : Config) (std : JSSTDLibraryDef Context)
    (input : string) (input_len : Z) (filename : string) (eval_flags : Z)
  : M Context JSValue :=
  fun c =>
    if arena_capacity (arena c) - arena_carved (arena c) <? script_need cfg then
      let (v, c') := throw_internal_error c "out of memory" in Some (v, c', [])
    else if String.eqb input js_code then js_code_run std c
    else let (v, c') := throw c "SyntaxError" in Some (v, c', []).

Definition engine (cfg : Config) : Engine := {|
  JSContext := Context;
  engine_NewContext := new_context cfg;
  engine_Eval := eval cfg;
  engine_GetException := get_exception;
  engine_ToCString := to_cstring cfg;
  engine_GC := fun c => c;
  engine_ThrowInternalError := throw_internal_error
|}.

(** [k] calls of a native function with the same arguments. *)
Fixpoint call_times (k : nat) (f : M Context JSValue) : M Context unit :=
  match k with
  | O => ret tt
  | S n => f ;; call_times n f
  end.

(** "MQuickJS requires about 10kB of RAM"; a five-byte [JSCStringBuf]. *)
Definition small : Config :=
  {| bootstrap_need := 10 * 1024; script_need := 8 * 1024; cstring_buf := 5 |}.

(** An engine whose evaluation of the script needs more than the arena
    has left after the bootstrap. *)
Definition hungry : Config :=
  {| bootstrap_need := 10 * 1024; script_need := 64 * 1024; cstring_buf := 5 |}.

(** An engine whose bootstrap state does not fit the arena. *)
Definition huge : Config :=
  {| bootstrap_need := 128 * 1024; script_need := 8 * 1024; cstring_buf := 5 |}.

(** The context right after a successful [JS_NewContext] over
    [js_memory]. *)
Definition boot : Context :=
  {| arena := {| arena_capacity := JS_MEMORY_SIZE;
                 arena_carved := 10 * 1024;
                 heap_obtained := 0 |};
     objects := []; exception := JS_NULL; cstrings := [] |}.

End Mock.

(** C2, as the spec words it, on the reference engine: whatever buffers
    the conversions took from the arena during a call of [print] have
    been given back when it returns, so the buffers in use are those in
    use before the call. *)
Definition print_releases_buffers (cfg : Mock.Config) : Prop :=
  forall c this_val argc argv r c' t,
    @js_print (Mock.engine cfg) this_val argc argv c = Some (r, c', t) ->
    Mock.cstrings c' = Mock.cstrings c.

(** ** Observations on traces and calls *)

(** The values a trace hands to [JS_ToCString], in order. *)
Fixpoint conversions (t : list Event) : list JSValue :=
  match t with
  | [] => []
  | Ev_JS_ToCString v :: t' => v :: conversions t'
  | _ :: t' => conversions t'
  end.

(** The number of calls of [JS_GC] in a trace. *)
Fixpoint gc_count (t : list Event) : nat :=
  match t with
  | [] => O
  | Ev_JS_GC :: t' => S (gc_count t')
  | _ :: t' => gc_count t'
  end.

(** What [js_print] and [main] write for the result of a conversion:
    the string, or nothing when the engine returned the null pointer. *)
Definition cstring_or_empty (r : option string) : string :=
  match r with
  | Some s => s
  | None => ""
  end.

Definition is_gc (h : HostFunction) : bool :=
  match h with
  | H_gc => true
  | _ => false
  end.

(** The calls [js_print] makes: UART writes, reads of [argv] and
    conversions. *)
Definition print_event (e : Event) : Prop :=
  match e with
  | Ev_uart_putc _ | Ev_uart_puts _ | Ev_argv _ | Ev_JS_ToCString _ => True
  | _ => False
  end.

(** A string without the byte 0, which ends a C string. *)
Fixpoint nul_free (s : string) : bool :=
  match s with
  | EmptyString => true
  | String a rest => negb (Ascii.eqb a Ascii.zero) && nul_free rest
  end.

(** * Proofs *)

(** ** Traces and strings *)

Lemma string_app_assoc (a b c : string) :
  ((a ++ b) ++ c)%string = (a ++ (b ++ c))%string.
Proof.
  induction a as [|x a IH]; simpl; [reflexivity | now rewrite IH].
Qed.

Lemma string_app_nil_r (a : string) : (a ++ "")%string = a.
Proof.
  induction a as [|x a IH]; simpl; [reflexivity | now rewrite IH].
Qed.

Lemma uart_output_app (t1 t2 : list Event) :
  uart_output (t1 ++ t2) = (uart_output t1 ++ uart_output t2)%string.
Proof.
  induction t1 as [|e t1 IH]; simpl; [reflexivity|].
  destruct e; simpl; rewrite ?IH, ?string_app_assoc; reflexivity.
Qed.

Lemma argv_reads_app (t1 t2 : list Event) :
  argv_reads (t1 ++ t2) = argv_reads t1 ++ argv_reads t2.
Proof.
  induction t1 as [|e t1 IH]; simpl; [reflexivity|].
  destruct e; simpl; rewrite ?IH; reflexivity.
Qed.

Lemma skipn_nth_error_cons {A : Type} (l : list A) (k : nat) (v : A) :
  nth_error l k = Some v -> skipn k l = v :: skipn (S k) l.
Proof.
  revert l; induction k as [|k IH]; intros [|x l] H; simpl in H; try discriminate.
  - now inversion H.
  - now apply IH.
Qed.

(** ** The loop of [js_print] *)

Section PrintLoop.

Context {E : Engine}.

(** The separator that precedes the argument in slot [k]. *)
Lemma js_print_arg_step (argv : list JSValue) (k : nat) (v : JSValue)
    (c : JSContext) :
  nth_error argv k = Some v ->
  js_print_arg argv (Z.of_nat k) c =
    Some (tt, snd (engine_ToCString c v),
          match k with O => [] | S _ => [Ev_uart_putc SP] end
          ++ [Ev_argv (Z.of_nat k); Ev_JS_ToCString v]
          ++ match fst (engine_ToCString c v) with
             | Some s => [Ev_uart_puts s]
             | None => []
             end).
Proof.
  intros Hv.
  unfold js_print_arg, bind, argv_get, JS_ToCString.
  assert (Hneg : (Z.of_nat k <? 0) = false) by (apply Z.ltb_ge; lia).
  destruct k as [|k].
  - simpl. simpl in Hv. rewrite Hv.
    destruct (engine_ToCString c v) as [[s|] c1]; reflexivity.
  - replace (negb (Z.of_nat (S k) =? 0)) with true
      by (symmetry; apply negb_true_iff, Z.eqb_neq; lia).
    cbn [uart_putc emit]. rewrite Hneg, Nat2Z.id, Hv.
    destruct (engine_ToCString c v) as [[s|] c1]; reflexivity.
Qed.

Lemma for_loop_print (argv : list JSValue) (n k : nat) (c : JSContext) :
  (k + n <= List.length argv)%nat ->
  for_loop n (Z.of_nat k) (js_print_arg argv) c =
    Some (tt, after_conversions c (firstn n (skipn k argv)),
          print_trace k c (firstn n (skipn k argv))).
Proof.
  revert k c; induction n as [|n IH]; intros k c Hlen.
  - reflexivity.
  - destruct (nth_error argv k) as [v|] eqn:Hv.
    2:{ apply nth_error_None in Hv. lia. }
    rewrite (skipn_nth_error_cons _ _ _ Hv).
    cbn [for_loop firstn after_conversions print_trace]. unfold bind.
    rewrite (js_print_arg_step _ _ _ _ Hv).
    replace (Z.of_nat k + 1) with (Z.of_nat (S k)) by lia.
    rewrite IH by lia.
    destruct (engine_ToCString c v) as [r c1]; cbn [fst snd].
    rewrite <- !app_assoc. reflexivity.
Qed.

(** A call of [js_print] whose array holds the [argc] arguments: the
    conversions of the arguments in order, then the newline. *)
Lemma js_print_run (this_val : JSValue) (argc : Z) (argv : list JSValue)
    (c : JSContext) :
  (Z.to_nat argc <= List.length argv)%nat ->
  js_print this_val argc argv c =
    Some (JS_UNDEFINED,
          after_conversions c (firstn (Z.to_nat argc) argv),
          print_trace 0 c (firstn (Z.to_nat argc) argv) ++ [Ev_uart_putc LF]).
Proof.
  intros Hlen. unfold js_print, for_int, bind.
  rewrite Z.sub_0_r.
  pose proof (for_loop_print argv (Z.to_nat argc) 0 c) as Hloop.
  cbn [Z.of_nat skipn Nat.add] in Hloop. rewrite Hloop by exact Hlen.
  cbn [uart_putc emit ret]. rewrite app_nil_r. reflexivity.
Qed.

End PrintLoop.

(** ** The monad *)

Lemma for_loop_split {C : Type} (n1 n2 : nat) (i : Z) (body : Z -> M C unit)
    (c : C) :
  for_loop (n1 + n2) i body c =
    (for_loop n1 i body ;; for_loop n2 (i + Z.of_nat n1) body) c.
Proof.
  revert i c; induction n1 as [|n1 IH]; intros i c.
  - cbn [Nat.add for_loop]. unfold bind, ret. rewrite Z.add_0_r.
    destruct (for_loop n2 i body c) as [[[u c2] t2]|]; [destruct u|]; reflexivity.
  - cbn [Nat.add for_loop]. unfold bind.
    destruct (body i c) as [[[u c1] t1]|]; [|reflexivity].
    rewrite IH. unfold bind.
    replace (i + 1 + Z.of_nat n1) with (i + Z.of_nat (S n1)) by lia.
    destruct (for_loop n1 (i + 1) body c1) as [[[u1 c2] t2]|]; [|reflexivity].
    destruct (for_loop n2 (i + Z.of_nat (S n1)) body c2) as [[[u2 c3] t3]|];
      [|reflexivity].
    now rewrite app_assoc.
Qed.

(** ** Output of [js_print] *)

Lemma concat_separator (s : string) (l : list string) :
  String.concat (chr SP) (s :: l) =
    (s ++ concat_strings (map (String SP) l))%string.
Proof.
  revert s; induction l as [|x l IH]; intros s.
  - simpl. now rewrite string_app_nil_r.
  - change (String.concat (chr SP) (s :: x :: l))
      with (s ++ chr SP ++ String.concat (chr SP) (x :: l))%string.
    rewrite IH. reflexivity.
Qed.

Section PrintOutput.

Context {E : Engine}.

Lemma uart_output_print_trace_next (args : list JSValue) (k : nat)
    (c : JSContext) (strs : list string) :
  to_cstrings c args = map Some strs ->
  uart_output (print_trace (S k) c args) = concat_strings (map (String SP) strs).
Proof.
  revert k c strs; induction args as [|v rest IH]; intros k c strs H.
  - destruct strs; [reflexivity | discriminate].
  - cbn [to_cstrings print_trace] in *.
    destruct (engine_ToCString c v) as [r c1].
    destruct strs as [|s strs]; [discriminate|].
    cbn [map] in H. inversion H; subst r.
    cbn [app uart_output map concat_strings].
    rewrite (IH (S k) c1 strs) by assumption. reflexivity.
Qed.

Lemma uart_output_print_trace (args : list JSValue) (c : JSContext)
    (strs : list string) :
  to_cstrings c args = map Some strs ->
  uart_output (print_trace 0 c args) = String.concat (chr SP) strs.
Proof.
  intros H. destruct args as [|v rest].
  - destruct strs; [reflexivity | discriminate].
  - cbn [to_cstrings print_trace] in *.
    destruct (engine_ToCString c v) as [r c1].
    destruct strs as [|s strs]; [discriminate|].
    cbn [map] in H. inversion H; subst r.
    cbn [app uart_output].
    rewrite (uart_output_print_trace_next rest 0 c1 strs) by assumption.
    now rewrite concat_separator.
Qed.

Lemma argv_reads_print_trace (args : list JSValue) (k : nat) (c : JSContext) :
  argv_reads (print_trace k c args) = map Z.of_nat (seq k (List.length args)).
Proof.
  revert k c; induction args as [|v rest IH]; intros k c; [reflexivity|].
  cbn [print_trace List.length seq map].
  destruct (engine_ToCString c v) as [r c1].
  rewrite !argv_reads_app, IH.
  destruct k, r; reflexivity.
Qed.

(** The trace of the loop depends on the slots it is run over only. *)
Lemma js_print_slots (this_val : JSValue) (argc : Z) (argv argv' : list JSValue)
    (c : JSContext) :
  (Z.to_nat argc <= List.length argv)%nat ->
  firstn (Z.to_nat argc) argv' = firstn (Z.to_nat argc) argv ->
  js_print this_val argc argv' c = js_print this_val argc argv c.
Proof.
  intros Hlen Heq.
  assert (Hlen' : (Z.to_nat argc <= List.length argv')%nat).
  { assert (Hl : List.length (firstn (Z.to_nat argc) argv') = Z.to_nat argc)
      by (rewrite Heq; now apply firstn_length_le).
    rewrite length_firstn in Hl. lia. }
  rewrite !js_print_run by assumption. now rewrite Heq.
Qed.

End PrintOutput.

(** ** The bridge functions *)

Lemma HostFunction_eq_print (h : HostFunction) : h = H_print \/ h <> H_print.
Proof.
  destruct h; (now left) || (right; discriminate).
Qed.

Section Bridge.

Context {E : Engine}.

(** C5: [print()] with zero arguments writes exactly one newline byte to
    the I/O sink and nothing else: the trace of the call is the single
    [uart_putc('\n')], the context is untouched and the result is
    Undefined, whatever array comes with [argc = 0]. *)
Theorem js_print_no_arguments (this_val : JSValue) (argv : list JSValue)
    (c : JSContext) :
  js_print this_val 0 argv c = Some (JS_UNDEFINED, c, [Ev_uart_putc LF]) /\
  uart_output [Ev_uart_putc LF] = chr LF.
Proof.
  split; reflexivity.
Qed.

(** C4: a call of [print] with [argc >= 1] arguments whose conversions all
    succeed, giving [strs], writes to the I/O sink exactly [strs] joined
    by single spaces and then one newline, and returns Undefined. *)
Theorem js_print_joins (this_val : JSValue) (argc : Z) (argv : list JSValue)
    (c : JSContext) (strs : list string) :
  1 <= argc ->
  (Z.to_nat argc <= List.length argv)%nat ->
  to_cstrings c (firstn (Z.to_nat argc) argv) = map Some strs ->
  exists c' t,
    js_print this_val argc argv c = Some (JS_UNDEFINED, c', t) /\
    uart_output t = (String.concat (chr SP) strs ++ chr LF)%string.
Proof.
  intros _ Hlen Hstrs.
  rewrite js_print_run by assumption.
  eexists; eexists; split; [reflexivity|].
  rewrite uart_output_app, (uart_output_print_trace _ _ _ Hstrs).
  reflexivity.
Qed.

Lemma host_function_not_print (h : HostFunction) (this_val : JSValue)
    (argc : Z) (argv : list JSValue) (c : JSContext) :
  h <> H_print ->
  exists r c' t,
    (forall argv', host_function h this_val argc argv' c = Some (r, c', t)) /\
    argv_reads t = [].
Proof.
  intros Hh. destruct h; try congruence; cbn [host_function js_stdlib
    stdlib_date_now stdlib_performance_now stdlib_gc stdlib_load
    stdlib_setTimeout stdlib_clearTimeout].
  - do 3 eexists; split; [intros; reflexivity | reflexivity].
  - do 3 eexists; split; [intros; reflexivity | reflexivity].
  - do 3 eexists; split; [intros; reflexivity | reflexivity].
  - unfold js_load, JS_ThrowInternalError.
    destruct (engine_ThrowInternalError c "load not implemented") as [v c1].
    do 3 eexists; split; [intros; reflexivity | reflexivity].
  - do 3 eexists; split; [intros; reflexivity | reflexivity].
  - do 3 eexists; split; [intros; reflexivity | reflexivity].
Qed.

(** A bridge function returns whenever the array holds the [argc]
    arguments. *)
Lemma host_function_total (h : HostFunction) (this_val : JSValue) (argc : Z)
    (argv : list JSValue) (c : JSContext) :
  (Z.to_nat argc <= List.length argv)%nat ->
  exists r c' t, host_function h this_val argc argv c = Some (r, c', t).
Proof.
  intros Hlen. destruct (HostFunction_eq_print h) as [->|Hh].
  - cbn [host_function js_stdlib stdlib_print].
    rewrite js_print_run by assumption. do 3 eexists; reflexivity.
  - destruct (host_function_not_print h this_val argc argv c Hh)
      as [r [c' [t [Hrun _]]]].
    exists r, c', t. apply Hrun.
Qed.

(** C7: every bridge function, called with any [argc >= 0] and an array
    that holds the [argc] arguments, returns normally; every slot of
    [argv] it reads has an index below [argc]; and the outcome is the same
    for any array with the same first [argc] slots, so what lies beyond
    them (the missing arguments, Undefined or not) is never looked at. *)
Theorem host_function_argc (h : HostFunction) (this_val : JSValue) (argc : Z)
    (argv : list JSValue) (c : JSContext) :
  0 <= argc ->
  (Z.to_nat argc <= List.length argv)%nat ->
  exists r c' t,
    host_function h this_val argc argv c = Some (r, c', t) /\
    Forall (fun i => 0 <= i < argc) (argv_reads t) /\
    (forall argv',
       firstn (Z.to_nat argc) argv' = firstn (Z.to_nat argc) argv ->
       host_function h this_val argc argv' c = Some (r, c', t)).
Proof.
  intros Hargc Hlen.
  destruct (HostFunction_eq_print h) as [->|Hh].
  - cbn [host_function js_stdlib stdlib_print].
    rewrite js_print_run by assumption.
    do 3 eexists; split; [reflexivity|]. split.
    + rewrite argv_reads_app, argv_reads_print_trace. cbn [argv_reads].
      rewrite app_nil_r, firstn_length_le by assumption.
      apply Forall_forall. intros i Hi.
      apply in_map_iff in Hi. destruct Hi as [j [<- Hj]].
      apply in_seq in Hj. lia.
    + intros argv' Heq.
      rewrite (js_print_slots this_val argc argv argv' c Hlen Heq).
      now apply js_print_run.
  - destruct (host_function_not_print h this_val argc argv c Hh)
      as [r [c' [t [Hrun Hreads]]]].
    exists r, c', t. split; [apply Hrun|]. split.
    + rewrite Hreads. constructor.
    + intros argv' _. apply Hrun.
Qed.

(** C10: in [print], for every argument [i >= 1], the trace of the call
    is: the trace [pre] of the loop over the slots before [i]; the
    separating space; only then the read of slot [i] and the conversion
    attempt; the write of the converted string, or nothing at all when
    the conversion failed; the trace [post] of the loop over the slots
    after [i]; the newline.  The call returns Undefined, which is not an
    exception, also when the conversion failed. *)
Theorem js_print_separator_first (this_val : JSValue) (argc : Z)
    (argv : list JSValue) (c : JSContext) (i : Z) (v : JSValue)
    (c_i : JSContext) (pre : list Event) :
  1 <= i < argc ->
  (Z.to_nat argc <= List.length argv)%nat ->
  nth_error argv (Z.to_nat i) = Some v ->
  for_int 0 i (js_print_arg argv) c = Some (tt, c_i, pre) ->
  exists c' post,
    for_int (i + 1) argc (js_print_arg argv) (snd (engine_ToCString c_i v))
      = Some (tt, c', post) /\
    js_print this_val argc argv c =
      Some (JS_UNDEFINED, c',
            pre ++ [Ev_uart_putc SP; Ev_argv i; Ev_JS_ToCString v]
                ++ match fst (engine_ToCString c_i v) with
                   | Some s => [Ev_uart_puts s]
                   | None => []
                   end
                ++ post ++ [Ev_uart_putc LF]) /\
    JS_IsException JS_UNDEFINED = false.
Proof.
  intros Hi Hlen Hv Hpre.
  unfold for_int in *. rewrite Z.sub_0_r in Hpre.
  set (k := Z.to_nat i) in *.
  set (n2 := Z.to_nat (argc - (i + 1))).
  assert (Hpost : for_loop n2 (i + 1) (js_print_arg argv)
                    (snd (engine_ToCString c_i v)) =
                  Some (tt, after_conversions (snd (engine_ToCString c_i v))
                              (firstn n2 (skipn (S k) argv)),
                        print_trace (S k) (snd (engine_ToCString c_i v))
                          (firstn n2 (skipn (S k) argv)))).
  { replace (i + 1) with (Z.of_nat (S k)) by (unfold k; lia).
    apply for_loop_print. unfold k, n2. lia. }
  eexists; eexists. split; [exact Hpost|]. split; [|reflexivity].
  unfold js_print, for_int. rewrite Z.sub_0_r.
  replace (Z.to_nat argc) with (k + S n2)%nat by (unfold k, n2; lia).
  unfold bind at 1. rewrite for_loop_split. unfold bind at 1. rewrite Hpre.
  cbn [for_loop]. unfold bind at 1 2.
  replace (0 + Z.of_nat k) with (Z.of_nat k) by lia.
  rewrite (js_print_arg_step _ _ _ _ Hv).
  replace (Z.of_nat k + 1) with (i + 1) by (unfold k; lia).
  rewrite Hpost.
  replace (Z.of_nat k) with i by (unfold k; lia).
  destruct k as [|k'] eqn:Hk; [unfold k in Hk; lia|].
  destruct (fst (engine_ToCString c_i v)) as [s|];
    cbn [uart_putc emit ret bind app];
    rewrite <- ?app_assoc; reflexivity.
Qed.

(** C6: for every argument list, [load] returns what
    [JS_ThrowInternalError(ctx, "load not implemented")] returns, a value
    tagged as an exception; it returns (the native call does not fault),
    writes nothing to the UART, reads no argument, and the context it
    leaves is the one the raising of that error leaves. *)
Theorem js_load_throws (L : EngineLaws E) (this_val : JSValue) (argc : Z)
    (argv : list JSValue) (c : JSContext) :
  exists v c',
    engine_ThrowInternalError c "load not implemented" = (v, c') /\
    js_load this_val argc argv c =
      Some (v, c', [Ev_JS_ThrowInternalError "load not implemented"]) /\
    JS_IsException v = true.
Proof.
  pose proof (ThrowInternalError_exception c "load not implemented") as Hexc.
  unfold js_load, JS_ThrowInternalError.
  destruct (engine_ThrowInternalError c "load not implemented") as [v c'].
  exists v, c'. repeat split. exact Hexc.
Qed.

(** Each clock function returns the integer 0 and leaves the context as
    it found it. *)
Lemma clock_returns_zero (h : HostFunction) (this_val : JSValue) (argc : Z)
    (argv : list JSValue) (c : JSContext) :
  is_clock h = true ->
  host_function h this_val argc argv c = Some (JS_Int 0, c, []).
Proof.
  destruct h; intros H; try discriminate H; reflexivity.
Qed.

Lemma run_calls_total (calls : list Call) (c : JSContext) :
  Forall well_formed calls ->
  exists rs c' t,
    run_calls calls c = Some (rs, c', t) /\
    Forall (fun v => v = JS_Int 0) (timestamps rs).
Proof.
  intros Hwf; revert c; induction Hwf as [|k rest [Hargc Hlen] _ IH]; intros c.
  - exists [], c, []. split; [reflexivity | constructor].
  - destruct (host_function_total (call_fn k) (call_this k) (call_argc k)
                (call_argv k) c Hlen) as [r [c1 [t1 Hrun]]].
    destruct (IH c1) as [rs [c2 [t2 [Hrest Hzero]]]].
    exists ((call_fn k, r) :: rs), c2, (t1 ++ t2 ++ []).
    split.
    + cbn [run_calls]. unfold bind. rewrite Hrun, Hrest. reflexivity.
    + unfold timestamps in *. cbn [filter fst].
      destruct (is_clock (call_fn k)) eqn:Hclock; [|exact Hzero].
      cbn [map snd]. constructor; [|exact Hzero].
      rewrite (clock_returns_zero _ _ _ _ c Hclock) in Hrun. congruence.
Qed.

Lemma zeros_sorted (l : list JSValue) :
  Forall (fun v => v = JS_Int 0) l ->
  exists ns, map number_of l = map Some ns /\ StronglySorted Z.le ns /\
             Forall (fun n => n = 0) ns.
Proof.
  induction 1 as [|v l Hv _ [ns [Hmap [Hsorted Hzero]]]].
  - exists []. repeat split; constructor.
  - exists (0 :: ns). subst v. cbn [map number_of]. rewrite Hmap.
    repeat split.
    + constructor; [exact Hsorted|].
      eapply Forall_impl; [|exact Hzero]. intros n ->. lia.
    + now constructor.
Qed.

(** C9: in any sequence of bridge calls made by the engine within one
    context, every value returned by [now] and [performanceNow] is a
    number, and the numbers are non-decreasing in call order: each is at
    least every one returned before it. *)
Theorem clock_monotonic (calls : list Call) (c : JSContext) :
  Forall well_formed calls ->
  exists rs c' t ns,
    run_calls calls c = Some (rs, c', t) /\
    Forall (fun v => is_number v = true) (timestamps rs) /\
    map number_of (timestamps rs) = map Some ns /\
    StronglySorted Z.le ns.
Proof.
  intros Hwf.
  destruct (run_calls_total calls c Hwf) as [rs [c' [t [Hrun Hzero]]]].
  destruct (zeros_sorted _ Hzero) as [ns [Hmap [Hsorted _]]].
  exists rs, c', t, ns. repeat split; try assumption.
  eapply Forall_impl; [|exact Hzero]. now intros v ->.
Qed.

End Bridge.

(** ** The memory *)

Lemma request_spec (src : Source) (n : Z) (m : Memory) :
  arena_capacity (snd (request src n m)) = arena_capacity m /\
  heap_obtained (snd (request src n m)) = heap_obtained m /\
  match fst (request src n m) with
  | Granted FromArena offset size =>
      offset = arena_carved m /\ 0 <= size /\
      arena_carved (snd (request src n m)) = offset + size /\
      offset + size <= arena_capacity m
  | Granted FromHeap _ _ => False
  | Refused => arena_carved (snd (request src n m)) = arena_carved m
  end.
Proof.
  destruct src; cbn [request].
  - destruct ((0 <=? n) && (arena_carved m + n <=? arena_capacity m)) eqn:Hroom;
      cbn [fst snd arena_capacity arena_carved heap_obtained].
    + apply andb_true_iff in Hroom. destruct Hroom as [H0 Hle].
      apply Z.leb_le in H0. apply Z.leb_le in Hle. repeat split; lia.
    + repeat split.
  - unfold _sbrk. rewrite Z.eqb_refl. repeat split.
Qed.

Lemma serve_spec (reqs : list (Source * Z)) (m : Memory) :
  arena_capacity (snd (serve reqs m)) = arena_capacity m /\
  heap_obtained (snd (serve reqs m)) = heap_obtained m /\
  arena_carved m <= arena_carved (snd (serve reqs m)) /\
  (arena_carved m <= arena_capacity m ->
   arena_carved (snd (serve reqs m)) <= arena_capacity m) /\
  Forall (fun g => match g with
                   | Granted FromArena offset size =>
                       arena_carved m <= offset /\ 0 <= size /\
                       offset + size <= arena_carved (snd (serve reqs m))
                   | Granted FromHeap _ _ => False
                   | Refused => True
                   end) (fst (serve reqs m)) /\
  Forall (fun r => arena_carved m <= fst r) (regions (fst (serve reqs m))) /\
  StronglySorted before (regions (fst (serve reqs m))).
Proof.
  revert m; induction reqs as [|[src n] rest IH]; intros m.
  - cbn [serve fst snd regions]. repeat split; try lia; constructor.
  - cbn [serve].
    pose proof (request_spec src n m) as [Hcap [Hheap Hgrant]].
    destruct (request src n m) as [g m1]. cbn [fst snd] in *.
    specialize (IH m1). destruct IH as [Hcap' [Hheap' [Hmono [Hbound [Hall [Hlow Hsorted]]]]]].
    destruct (serve rest m1) as [gs m2]. cbn [fst snd] in *.
    assert (Hstep : arena_carved m <= arena_carved m1).
    { destruct g as [[|] offset size|]; [lia | contradiction | lia]. }
    split; [congruence|]. split; [congruence|]. split; [lia|].
    split.
    { intros Hle. rewrite <- Hcap. apply Hbound.
      destruct g as [[|] offset size|]; [lia | contradiction | lia]. }
    split.
    { constructor.
      - destruct g as [[|] offset size|]; [lia | contradiction | exact I].
      - eapply Forall_impl; [|exact Hall].
        intros [[|] offset size|]; [lia | tauto | tauto]. }
    destruct g as [[|] offset size|]; cbn [regions]; [|contradiction|].
    + split.
      * constructor; [cbn [fst]; lia|].
        eapply Forall_impl; [|exact Hlow]. intros r Hr; cbn beta in *; lia.
      * constructor; [exact Hsorted|].
        eapply Forall_impl; [|exact Hlow]. intros r Hr.
        unfold before. cbn [fst snd] in *. lia.
    + split; [|exact Hsorted].
      eapply Forall_impl; [|exact Hlow]. intros r Hr; cbn beta in *; lia.
Qed.

(** ** The driver *)

Section Driver.

Context {E : Engine}.

(** C8: the heap-growth primitive fails for every increment, returning
    [(void* ) -1].  A run of the driver that evaluates has created its
    context over [js_memory] with the size 65536.  Whatever requests for
    memory are made during the lifetime of that context, to the arena or
    to the heap, in any order: no byte is ever obtained from the heap;
    every request that is granted is granted inside the 65536 bytes of
    the arena; the regions granted follow one another without overlap;
    and the bytes carved out never exceed 65536. *)
Theorem arena_only (t : list Event) (reqs : list (Source * Z)) :
  main = Some (0, t) ->
  let served := serve reqs (create_memory js_memory (sizeof js_memory)) in
  (forall incr, _sbrk incr = SBRK_FAILED) /\
  SBRK_FAILED = -1 /\
  (exists ctx, engine_NewContext js_memory 65536 = Some ctx) /\
  arena_capacity (snd served) = 65536 /\
  0 <= arena_carved (snd served) <= 65536 /\
  heap_obtained (snd served) = 0 /\
  Forall (in_arena 65536) (fst served) /\
  StronglySorted before (regions (fst served)).
Proof.
  intros Hmain served.
  pose proof (serve_spec reqs (create_memory js_memory (sizeof js_memory)))
    as [Hcap [Hheap [Hmono [Hbound [Hall [_ Hsorted]]]]]].
  fold served in Hcap, Hheap, Hmono, Hbound, Hall, Hsorted.
  cbn [create_memory arena_capacity arena_carved heap_obtained] in *.
  change (sizeof js_memory) with 65536 in *.
  specialize (Hbound ltac:(lia)).
  split; [reflexivity|]. split; [reflexivity|]. split.
  { unfold main in Hmain.
    change (sizeof js_memory) with 65536 in Hmain.
    destruct (engine_NewContext js_memory 65536) as [ctx|];
      [now exists ctx | discriminate]. }
  split; [exact Hcap|]. split; [lia|]. split; [exact Hheap|].
  split; [|exact Hsorted].
  eapply Forall_impl; [|exact Hall].
  intros [[|] offset size|]; unfold in_arena; [lia | tauto | tauto].
Qed.

(** C1, as the code has it: the driver exits 1, after the message
    "Failed to create JS context", when the context cannot be created;
    once the context is created and the evaluation has returned, it exits
    0, also when the evaluation ended in an uncaught exception, which is
    reported on the UART by a line that starts with "JS Exception: " and
    not by the exit status. *)
Theorem main_exit_status :
  (engine_NewContext js_memory (sizeof js_memory) = None ->
   main = Some (1, [Ev_JS_NewContext js_memory (sizeof js_memory);
                    Ev_uart_puts ("Failed to create JS context" ++ chr LF)])) /\
  (forall ctx result c' t,
     engine_NewContext js_memory (sizeof js_memory) = Some ctx ->
     JS_Eval js_stdlib js_code (strlen js_code) "<input>" 0 ctx
       = Some (result, c', t) ->
     exists t',
       main = Some (0, t') /\
       (JS_IsException result = true ->
        exists text,
          uart_output t' =
            (uart_output t ++ "JS Exception: " ++ text ++ chr LF)%string)).
Proof.
  split.
  - intros Hctx. unfold main. now rewrite Hctx.
  - intros ctx result c' t Hctx Heval.
    unfold main, main_eval. rewrite Hctx. unfold bind at 1. rewrite Heval.
    destruct (JS_IsException result).
    + unfold bind, JS_GetException, JS_ToCString.
      cbn [uart_puts uart_putc emit ret].
      destruct (engine_GetException c') as [exception c1].
      destruct (engine_ToCString c1 exception) as [[s|] c2];
        (eexists; split; [reflexivity|]); intros _.
      * exists s. cbn [uart_output].
        rewrite <- app_assoc, uart_output_app. f_equal.
      * exists "". cbn [uart_output].
        rewrite <- app_assoc, uart_output_app. f_equal.
    + unfold bind, JS_ToCString.
      destruct (engine_ToCString c' result) as [[s|] c1];
        (eexists; split; [reflexivity|]); intros H; discriminate H.
Qed.

End Driver.

(** ** The demo script *)

Lemma js_append_loop_repeat (n : nat) (acc msg : string) :
  js_append_loop n acc msg = (acc ++ repeat_string msg n)%string.
Proof.
  revert acc; induction n as [|n IH]; intros acc; cbn [js_append_loop repeat_string].
  - now rewrite string_app_nil_r.
  - now rewrite IH, string_app_assoc.
Qed.

Section Demo.

Context {E : Engine} (L : EngineLaws E).

(** [print(s)] for a string [s]: the content of [s], then the newline. *)
Lemma print_string (s : string) (c : JSContext) :
  js_call (stdlib_print js_stdlib) [JS_String s] c =
    Some (JS_UNDEFINED, snd (engine_ToCString c (JS_String s)),
          [Ev_argv 0; Ev_JS_ToCString (JS_String s); Ev_uart_puts s;
           Ev_uart_putc LF]).
Proof.
  unfold js_call. change (Z.of_nat (List.length [JS_String s])) with 1.
  cbn [stdlib_print js_stdlib].
  rewrite js_print_run by (simpl; lia).
  change (Z.to_nat 1) with 1%nat.
  cbn [firstn after_conversions print_trace].
  pose proof (ToCString_string c s) as Hs.
  destruct (engine_ToCString c (JS_String s)) as [r c1].
  cbn [fst snd] in *. subst r. reflexivity.
Qed.

Lemma demo_loop (n k : nat) (c : JSContext) :
  exists c' t,
    js_for n (Z.of_nat k)
      (fun i =>
         js_call (stdlib_print js_stdlib)
           [JS_String (js_append_loop (Z.to_nat (i - 0)) "" "Hello from JS!"
                         ++ chr LF)%string]) c
      = Some (JS_UNDEFINED, c', t) /\
    uart_output t =
      concat_strings
        (map (fun i => printed_line (repeat_string "Hello from JS!" i))
             (seq k n)).
Proof.
  revert k c; induction n as [|n IH]; intros k c.
  - exists c, []. split; reflexivity.
  - cbn [js_for]. unfold bind. rewrite print_string.
    cbn [JS_IsException].
    replace (Z.of_nat k + 1) with (Z.of_nat (S k)) by lia.
    destruct (IH (S k) (snd (engine_ToCString c
                (JS_String (js_append_loop (Z.to_nat (Z.of_nat k - 0)) ""
                              "Hello from JS!" ++ chr LF)%string))))
      as [c' [t [Hrun Hout]]].
    rewrite Hrun. eexists; eexists; split; [reflexivity|].
    cbn [app uart_output seq map concat_strings]. rewrite Hout.
    rewrite Z.sub_0_r, Nat2Z.id, js_append_loop_repeat.
    unfold printed_line. cbn [String.append].
    rewrite !string_app_assoc. reflexivity.
Qed.

(** C3: on any engine that returns the content of a string value when it
    converts it, running the embedded script yields Undefined and puts on
    the UART exactly [demo_stream]: for each [i] from 0 to 9 the message
    of [i] repetitions of "Hello from JS!" with its newline and the
    newline [print] appends, then "Successful JavaScript!" with its
    newline and the newline [print] appends. *)
Theorem demo_output (c : JSContext) :
  exists c' t,
    js_code_run js_stdlib c = Some (JS_UNDEFINED, c', t) /\
    uart_output t = demo_stream.
Proof.
  unfold js_code_run. cbv zeta. unfold bind at 1.
  change (Z.to_nat (10 - 0)) with 10%nat.
  destruct (demo_loop 10 0 c) as [c1 [t1 [Hrun Hout]]].
  cbn [Z.of_nat] in Hrun. rewrite Hrun. cbn [JS_IsException].
  rewrite print_string.
  eexists; eexists; split; [reflexivity|].
  rewrite uart_output_app, Hout. unfold demo_stream, printed_line.
  cbn [uart_output]. rewrite string_app_assoc. reflexivity.
Qed.

End Demo.

(** ** The reference engine *)

Lemma Mock_laws (cfg : Mock.Config) : EngineLaws (Mock.engine cfg).
Proof.
  split.
  - intros c msg. cbn [engine_ThrowInternalError Mock.engine].
    unfold Mock.throw_internal_error, Mock.throw.
    destruct (Mock.js_malloc _ c); reflexivity.
  - reflexivity.
Qed.

Section PrintEvents.

Context {E : Engine}.

Lemma print_trace_events (args : list JSValue) (k : nat) (c : JSContext) :
  Forall print_event (print_trace k c args).
Proof.
  revert k c; induction args as [|v rest IH]; intros k c; [constructor|].
  cbn [print_trace]. destruct (engine_ToCString c v) as [r c1].
  repeat (apply Forall_app; split); try apply IH.
  - destruct k; repeat constructor.
  - repeat constructor.
  - destruct r; repeat constructor.
Qed.

(** [js_print] does nothing to the context but convert: the context it
    leaves is the one the conversions leave, and its trace has UART
    writes, reads of [argv] and conversions only. *)
Lemma js_print_only_converts (this_val : JSValue) (argc : Z)
    (argv : list JSValue) (c : JSContext) :
  (Z.to_nat argc <= List.length argv)%nat ->
  exists t,
    js_print this_val argc argv c =
      Some (JS_UNDEFINED, after_conversions c (firstn (Z.to_nat argc) argv), t) /\
    Forall print_event t.
Proof.
  intros Hlen. rewrite js_print_run by assumption.
  eexists; split; [reflexivity|].
  apply Forall_app; split; [apply print_trace_events | repeat constructor].
Qed.

End PrintEvents.

Lemma js_malloc_room (n : Z) (c : Mock.Context) :
  0 <= n ->
  arena_carved (Mock.arena c) + n <= arena_capacity (Mock.arena c) ->
  Mock.js_malloc n c =
    Some {| Mock.arena :=
              {| arena_capacity := arena_capacity (Mock.arena c);
                 arena_carved := arena_carved (Mock.arena c) + n;
                 heap_obtained := heap_obtained (Mock.arena c) |};
            Mock.objects := Mock.objects c;
            Mock.exception := Mock.exception c;
            Mock.cstrings := Mock.cstrings c |}.
Proof.
  intros H0 Hroom. unfold Mock.js_malloc, request.
  replace (0 <=? n) with true by (symmetry; now apply Z.leb_le).
  replace (arena_carved (Mock.arena c) + n <=? arena_capacity (Mock.arena c))
    with true by (symmetry; now apply Z.leb_le).
  reflexivity.
Qed.

Lemma js_malloc_full (n : Z) (c : Mock.Context) :
  arena_capacity (Mock.arena c) < arena_carved (Mock.arena c) + n ->
  Mock.js_malloc n c = None.
Proof.
  intros Hfull. unfold Mock.js_malloc, request.
  replace (arena_carved (Mock.arena c) + n <=? arena_capacity (Mock.arena c))
    with false by (symmetry; now apply Z.leb_gt).
  now rewrite andb_false_r.
Qed.

Lemma strlen_nonneg (s : string) : 0 <= strlen s.
Proof.
  unfold strlen. lia.
Qed.

(** One [print] of an integer whose text needs a buffer, with room in
    the arena. *)
Lemma print_int_takes_buffer (cfg : Mock.Config) (this_val : JSValue) (n : Z)
    (c : Mock.Context) :
  (Mock.cstring_buf cfg - 1 < String.length (Mock.text_of_int n))%nat ->
  arena_carved (Mock.arena c) + (strlen (Mock.text_of_int n) + 1)
    <= arena_capacity (Mock.arena c) ->
  exists c' t,
    @js_print (Mock.engine cfg) this_val 1 [JS_Int n] c
      = Some (JS_UNDEFINED, c', t) /\
    Mock.cstrings c' = Mock.text_of_int n :: Mock.cstrings c /\
    arena_carved (Mock.arena c') =
      arena_carved (Mock.arena c) + (strlen (Mock.text_of_int n) + 1) /\
    arena_capacity (Mock.arena c') = arena_capacity (Mock.arena c).
Proof.
  intros Hlong Hroom.
  rewrite js_print_run by (simpl; lia).
  eexists; eexists; split; [reflexivity|].
  change (Z.to_nat 1) with 1%nat. cbn [firstn after_conversions].
  change (@engine_ToCString (Mock.engine cfg)) with (Mock.to_cstring cfg).
  cbn [Mock.to_cstring]. unfold Mock.cstring_of_text.
  apply Nat.leb_gt in Hlong. rewrite Hlong.
  rewrite js_malloc_room by (pose proof (strlen_nonneg (Mock.text_of_int n)); lia).
  repeat split.
Qed.

(** One [print] of such an integer when the arena has no room left: the
    conversion returns the null pointer. *)
Lemma print_int_arena_full (cfg : Mock.Config) (this_val : JSValue) (n : Z)
    (c : Mock.Context) :
  (Mock.cstring_buf cfg - 1 < String.length (Mock.text_of_int n))%nat ->
  arena_capacity (Mock.arena c)
    < arena_carved (Mock.arena c) + (strlen (Mock.text_of_int n) + 1) ->
  @js_print (Mock.engine cfg) this_val 1 [JS_Int n] c =
    Some (JS_UNDEFINED, c,
          [Ev_argv 0; Ev_JS_ToCString (JS_Int n); Ev_uart_putc LF]).
Proof.
  intros Hlong Hfull.
  rewrite js_print_run by (simpl; lia).
  change (Z.to_nat 1) with 1%nat. cbn [firstn after_conversions print_trace].
  change (@engine_ToCString (Mock.engine cfg)) with (Mock.to_cstring cfg).
  cbn [Mock.to_cstring]. unfold Mock.cstring_of_text.
  apply Nat.leb_gt in Hlong. rewrite Hlong.
  rewrite js_malloc_full by assumption. reflexivity.
Qed.

Lemma call_times_print_int (cfg : Mock.Config) (this_val : JSValue) (n : Z)
    (k : nat) (c : Mock.Context) :
  (Mock.cstring_buf cfg - 1 < String.length (Mock.text_of_int n))%nat ->
  arena_carved (Mock.arena c)
    + Z.of_nat k * (strlen (Mock.text_of_int n) + 1)
    <= arena_capacity (Mock.arena c) ->
  exists c' t,
    Mock.call_times k (@js_print (Mock.engine cfg) this_val 1 [JS_Int n]) c
      = Some (tt, c', t) /\
    Mock.cstrings c' = repeat (Mock.text_of_int n) k ++ Mock.cstrings c /\
    arena_carved (Mock.arena c') =
      arena_carved (Mock.arena c)
        + Z.of_nat k * (strlen (Mock.text_of_int n) + 1).
Proof.
  intros Hlong. revert c; induction k as [|k IH]; intros c Hroom.
  - exists c, []. repeat split. cbn [Z.of_nat]. lia.
  - pose proof (strlen_nonneg (Mock.text_of_int n)) as Hlen.
    destruct (print_int_takes_buffer cfg this_val n c Hlong)
      as [c1 [t1 [Hrun [Hbuf [Hcarved Hcap]]]]]; [nia|].
    destruct (IH c1) as [c2 [t2 [Hrest [Hbufs Hcarved2]]]];
      [rewrite Hcarved, Hcap; nia|].
    exists c2, (t1 ++ t2). split; [|split].
    + cbn [Mock.call_times]. unfold bind. rewrite Hrun, Hrest. reflexivity.
    + rewrite Hbufs, Hbuf. cbn [repeat].
      rewrite repeat_cons, <- app_assoc. reflexivity.
    + rewrite Hcarved2, Hcarved. nia.
Qed.

(** C2, as the code has it.  On any engine, [print] gives nothing back:
    it does nothing to the context but convert its arguments in order,
    so the context it leaves is the one the last conversion left, with
    whatever the conversions took from the arena.  On the reference
    engine, whose conversion of a long integer takes a buffer from the
    arena: [k] calls of [print] on such an integer leave [k] more buffers
    in use and as many more bytes of the arena carved out, as long as the
    arena has room for them; and once it has no room, the conversion
    fails, [print] writes the newline alone and the buffers in use stay
    as they are. *)
Theorem js_print_keeps_buffers :
  (forall (E : Engine) (this_val : JSValue) (argc : Z) (argv : list JSValue)
          (c : JSContext),
     (Z.to_nat argc <= List.length argv)%nat ->
     exists t,
       js_print this_val argc argv c =
         Some (JS_UNDEFINED,
               after_conversions c (firstn (Z.to_nat argc) argv), t) /\
       Forall print_event t) /\
  (forall (cfg : Mock.Config) (this_val : JSValue) (n : Z) (k : nat)
          (c : Mock.Context),
     (Mock.cstring_buf cfg - 1 < String.length (Mock.text_of_int n))%nat ->
     arena_carved (Mock.arena c)
       + Z.of_nat k * (strlen (Mock.text_of_int n) + 1)
       <= arena_capacity (Mock.arena c) ->
     exists c' t,
       Mock.call_times k (@js_print (Mock.engine cfg) this_val 1 [JS_Int n]) c
         = Some (tt, c', t) /\
       Mock.cstrings c' = repeat (Mock.text_of_int n) k ++ Mock.cstrings c /\
       arena_carved (Mock.arena c') =
         arena_carved (Mock.arena c)
           + Z.of_nat k * (strlen (Mock.text_of_int n) + 1)) /\
  (forall (cfg : Mock.Config) (this_val : JSValue) (n : Z) (c : Mock.Context),
     (Mock.cstring_buf cfg - 1 < String.length (Mock.text_of_int n))%nat ->
     arena_capacity (Mock.arena c)
       < arena_carved (Mock.arena c) + (strlen (Mock.text_of_int n) + 1) ->
     exists t,
       @js_print (Mock.engine cfg) this_val 1 [JS_Int n] c
         = Some (JS_UNDEFINED, c, t) /\
       uart_output t = chr LF).
Proof.
  split; [|split].
  - intros E this_val argc argv c Hlen. now apply js_print_only_converts.
  - intros cfg this_val n k c Hlong Hroom. now apply call_times_print_int.
  - intros cfg this_val n c Hlong Hfull.
    rewrite (print_int_arena_full cfg this_val n c Hlong Hfull).
    eexists; split; reflexivity.
Qed.

(** ** Concrete runs *)

(** The whole run of the driver on the reference engine: the stream of
    the script, then the line the driver writes for the result. *)
Example main_demo_run :
  option_map (fun r => (fst r, uart_output (snd r)))
    (@main (Mock.engine Mock.small)) =
  Some (0, (demo_stream ++ "Result: undefined" ++ chr LF)%string).
Proof.
  vm_compute. reflexivity.
Qed.

(** Three calls of [print(1234567)] leave three buffers in use. *)
Example three_prints_three_buffers :
  option_map (fun r => Mock.cstrings (snd (fst r)))
    (Mock.call_times 3
       (@js_print (Mock.engine Mock.small) JS_UNDEFINED 1 [JS_Int 1234567])
       Mock.boot) =
  Some ["1234567"; "1234567"; "1234567"].
Proof.
  vm_compute. reflexivity.
Qed.

(** C2 fails as the spec words it: on the reference engine, the buffer
    that the conversion of the integer 1234567 takes from the arena is
    still in use when [print(1234567)] has returned. *)
Lemma js_print_leaks_buffer : ~ print_releases_buffers Mock.small.
Proof.
  intros H.
  specialize (H Mock.boot JS_UNDEFINED 1 [JS_Int 1234567] _ _ _ eq_refl).
  discriminate H.
Qed.

(** C1 fails as the spec words it: on an engine whose evaluation of the
    script runs out of arena, the evaluation ends in an uncaught
    exception and the driver still exits 0. *)
Lemma main_exits_0_on_exception :
  ~ @exit_status_reflects_exception (Mock.engine Mock.hungry).
Proof.
  intros [_ H].
  specialize (H Mock.boot _ _ _ eq_refl eq_refl).
  cbn [JS_IsException] in H. destruct H as [status [Hexit Hne]].
  vm_compute in Hexit. congruence.
Qed.

(** The amended C1 on the engine that runs out of arena: exit status 0,
    and the exception on the UART. *)
Lemma main_exit_status_witness :
  exists t',
    @main (Mock.engine Mock.hungry) = Some (0, t') /\
    (JS_IsException JS_EXCEPTION = true ->
     exists text,
       uart_output t' =
         (uart_output [Ev_JS_Eval js_code (strlen js_code) "<input>" 0]
            ++ "JS Exception: " ++ text ++ chr LF)%string).
Proof.
  apply (proj2 (@main_exit_status (Mock.engine Mock.hungry)) Mock.boot
           JS_EXCEPTION
           (snd (Mock.throw_internal_error Mock.boot "out of memory")));
    reflexivity.
Defined.

(** [print(1234567)] three times on the reference engine, right after
    the context is created. *)
Lemma js_print_keeps_buffers_witness :
  exists c' t,
    Mock.call_times 3
      (@js_print (Mock.engine Mock.small) JS_UNDEFINED 1 [JS_Int 1234567])
      Mock.boot = Some (tt, c', t) /\
    Mock.cstrings c' =
      repeat (Mock.text_of_int 1234567) 3 ++ Mock.cstrings Mock.boot /\
    arena_carved (Mock.arena c') =
      arena_carved (Mock.arena Mock.boot)
        + Z.of_nat 3 * (strlen (Mock.text_of_int 1234567) + 1).
Proof.
  apply (proj1 (proj2 js_print_keeps_buffers) Mock.small JS_UNDEFINED 1234567
           3%nat Mock.boot).
  - vm_compute. lia.
  - vm_compute. discriminate.
Defined.

(** The demo on the reference engine. *)
Lemma demo_output_witness :
  exists c' t,
    @js_code_run Mock.Context (@js_stdlib (Mock.engine Mock.small)) Mock.boot
      = Some (JS_UNDEFINED, c', t) /\
    uart_output t = demo_stream.
Proof.
  exact (@demo_output (Mock.engine Mock.small) (Mock_laws Mock.small) Mock.boot).
Defined.

(** [print("a", "b")] writes "a b" and a newline. *)
Lemma js_print_joins_witness :
  exists c' t,
    @js_print (Mock.engine Mock.small) JS_UNDEFINED 2
      [JS_String "a"; JS_String "b"] Mock.boot = Some (JS_UNDEFINED, c', t) /\
    uart_output t = ("a b" ++ chr LF)%string.
Proof.
  apply (@js_print_joins (Mock.engine Mock.small) JS_UNDEFINED 2
           [JS_String "a"; JS_String "b"] Mock.boot ["a"; "b"]).
  - lia.
  - simpl; lia.
  - reflexivity.
Defined.

(** [load("x.js")] on the reference engine. *)
Lemma js_load_throws_witness :
  exists v c',
    Mock.throw_internal_error Mock.boot "load not implemented" = (v, c') /\
    @js_load (Mock.engine Mock.small) JS_UNDEFINED 1 [JS_String "x.js"] Mock.boot
      = Some (v, c', [Ev_JS_ThrowInternalError "load not implemented"]) /\
    JS_IsException v = true.
Proof.
  exact (@js_load_throws (Mock.engine Mock.small) (Mock_laws Mock.small)
           JS_UNDEFINED 1 [JS_String "x.js"] Mock.boot).
Defined.

(** [setTimeout()] with no argument at all. *)
Lemma host_function_argc_witness :
  exists r c' t,
    @host_function (Mock.engine Mock.small) H_setTimeout JS_UNDEFINED 0 []
      Mock.boot = Some (r, c', t) /\
    Forall (fun i => 0 <= i < 0) (argv_reads t) /\
    (forall argv',
       firstn (Z.to_nat 0) argv' = firstn (Z.to_nat 0) [] ->
       @host_function (Mock.engine Mock.small) H_setTimeout JS_UNDEFINED 0
         argv' Mock.boot = Some (r, c', t)).
Proof.
  apply (@host_function_argc (Mock.engine Mock.small) H_setTimeout
           JS_UNDEFINED 0 [] Mock.boot).
  - lia.
  - simpl; lia.
Defined.

(** The run on the engine whose evaluation runs out of arena, and
    requests of which the heap is asked twice and the arena once for more
    than it has left. *)
Lemma arena_only_witness :
  let served :=
    serve [(FromArena, 10240); (FromHeap, 4096); (FromArena, 60000);
           (FromArena, 29); (FromHeap, 1); (FromArena, 8)]
      (create_memory js_memory (sizeof js_memory)) in
  (forall incr, _sbrk incr = SBRK_FAILED) /\
  SBRK_FAILED = -1 /\
  (exists ctx,
     @engine_NewContext (Mock.engine Mock.hungry) js_memory 65536 = Some ctx) /\
  arena_capacity (snd served) = 65536 /\
  0 <= arena_carved (snd served) <= 65536 /\
  heap_obtained (snd served) = 0 /\
  Forall (in_arena 65536) (fst served) /\
  StronglySorted before (regions (fst served)).
Proof.
  apply (@arena_only (Mock.engine Mock.hungry)
           [Ev_JS_NewContext js_memory (sizeof js_memory);
            Ev_JS_Eval js_code (strlen js_code) "<input>" 0;
            Ev_uart_puts "JS Exception: "; Ev_JS_GetException;
            Ev_JS_ToCString (JS_Object 0);
            Ev_uart_puts "InternalError: out of memory"; Ev_uart_putc LF;
            Ev_JS_FreeContext]).
  reflexivity.
Defined.

(** Clock calls among other bridge calls. *)
Lemma clock_monotonic_witness :
  exists rs c' t ns,
    @run_calls (Mock.engine Mock.small)
      [ {| call_fn := H_date_now; call_this := JS_UNDEFINED; call_argc := 0;
           call_argv := [] |};
        {| call_fn := H_print; call_this := JS_UNDEFINED; call_argc := 1;
           call_argv := [JS_Int 1234567] |};
        {| call_fn := H_performance_now; call_this := JS_UNDEFINED;
           call_argc := 0; call_argv := [] |};
        {| call_fn := H_load; call_this := JS_UNDEFINED; call_argc := 0;
           call_argv := [] |};
        {| call_fn := H_date_now; call_this := JS_UNDEFINED; call_argc := 2;
           call_argv := [JS_NULL; JS_Bool true] |} ] Mock.boot
      = Some (rs, c', t) /\
    Forall (fun v => is_number v = true) (timestamps rs) /\
    map number_of (timestamps rs) = map Some ns /\
    StronglySorted Z.le ns.
Proof.
  apply (@clock_monotonic (Mock.engine Mock.small)).
  repeat constructor; simpl; lia.
Defined.

(** [print("a", obj, "b")] where the conversion of [obj] fails. *)
Lemma js_print_separator_first_witness :
  exists c' post,
    for_int (1 + 1) 3
      (@js_print_arg (Mock.engine Mock.small)
         [JS_String "a"; JS_Object 7; JS_String "b"])
      (snd (Mock.to_cstring Mock.small Mock.boot (JS_Object 7)))
      = Some (tt, c', post) /\
    @js_print (Mock.engine Mock.small) JS_UNDEFINED 3
      [JS_String "a"; JS_Object 7; JS_String "b"] Mock.boot =
      Some (JS_UNDEFINED, c',
            [Ev_argv 0; Ev_JS_ToCString (JS_String "a"); Ev_uart_puts "a"]
              ++ [Ev_uart_putc SP; Ev_argv 1; Ev_JS_ToCString (JS_Object 7)]
              ++ []
              ++ post ++ [Ev_uart_putc LF]) /\
    JS_IsException JS_UNDEFINED = false.
Proof.
  apply (@js_print_separator_first (Mock.engine Mock.small) JS_UNDEFINED 3
           [JS_String "a"; JS_Object 7; JS_String "b"] Mock.boot 1
           (JS_Object 7) Mock.boot
           [Ev_argv 0; Ev_JS_ToCString (JS_String "a"); Ev_uart_puts "a"]).
  - lia.
  - simpl; lia.
  - reflexivity.
  - reflexivity.
Defined.

(** * Further properties of the host *)

(** ** Strings and traces *)

Lemma concat_strings_app (l1 l2 : list string) :
  concat_strings (l1 ++ l2) = (concat_strings l1 ++ concat_strings l2)%string.
Proof.
  induction l1 as [|s l1 IH]; cbn [app concat_strings]; [reflexivity|].
  now rewrite IH, string_app_assoc.
Qed.

Lemma concat_separator_app (l1 l2 : list string) :
  l1 <> [] -> l2 <> [] ->
  String.concat (chr SP) (l1 ++ l2) =
    (String.concat (chr SP) l1 ++ chr SP ++ String.concat (chr SP) l2)%string.
Proof.
  destruct l1 as [|s l1]; [congruence|].
  destruct l2 as [|x l2]; [congruence|]. intros _ _.
  change ((s :: l1) ++ x :: l2) with (s :: (l1 ++ x :: l2)).
  rewrite !concat_separator, map_app, concat_strings_app.
  cbn [map concat_strings]. rewrite !string_app_assoc. reflexivity.
Qed.

Lemma conversions_app (t1 t2 : list Event) :
  conversions (t1 ++ t2) = conversions t1 ++ conversions t2.
Proof.
  induction t1 as [|e t1 IH]; simpl; [reflexivity|].
  destruct e; simpl; rewrite ?IH; reflexivity.
Qed.

Lemma gc_count_app (t1 t2 : list Event) :
  gc_count (t1 ++ t2) = (gc_count t1 + gc_count t2)%nat.
Proof.
  induction t1 as [|e t1 IH]; simpl; [reflexivity|].
  destruct e; simpl; rewrite ?IH; reflexivity.
Qed.

(** ** More on [js_print] *)

Section PrintMore.

Context {E : Engine}.

Lemma to_cstrings_app (a b : list JSValue) (c : JSContext) :
  to_cstrings c (a ++ b) =
    to_cstrings c a ++ to_cstrings (after_conversions c a) b.
Proof.
  revert c; induction a as [|v a IH]; intros c; [reflexivity|].
  cbn [app to_cstrings after_conversions].
  destruct (engine_ToCString c v) as [r c1]. cbn [snd app].
  now rewrite IH.
Qed.

Lemma after_conversions_app (a b : list JSValue) (c : JSContext) :
  after_conversions c (a ++ b) = after_conversions (after_conversions c a) b.
Proof.
  revert c; induction a as [|v a IH]; intros c; [reflexivity|].
  cbn [app after_conversions]. now rewrite IH.
Qed.

Lemma to_cstrings_length (args : list JSValue) (c : JSContext) :
  List.length (to_cstrings c args) = List.length args.
Proof.
  revert c; induction args as [|v args IH]; intros c; [reflexivity|].
  cbn [to_cstrings]. destruct (engine_ToCString c v) as [r c1].
  cbn [List.length]. now rewrite IH.
Qed.

Lemma uart_output_print_trace_any_next (args : list JSValue) (k : nat)
    (c : JSContext) :
  uart_output (print_trace (S k) c args) =
    concat_strings
      (map (String SP) (map cstring_or_empty (to_cstrings c args))).
Proof.
  revert k c; induction args as [|v rest IH]; intros k c; [reflexivity|].
  cbn [to_cstrings print_trace].
  destruct (engine_ToCString c v) as [[s|] c1];
    cbn [app uart_output map concat_strings cstring_or_empty String.append];
    rewrite (IH (S k) c1); reflexivity.
Qed.

Lemma uart_output_print_trace_any (args : list JSValue) (c : JSContext) :
  uart_output (print_trace 0 c args) =
    String.concat (chr SP) (map cstring_or_empty (to_cstrings c args)).
Proof.
  destruct args as [|v rest]; [reflexivity|].
  cbn [to_cstrings print_trace].
  destruct (engine_ToCString c v) as [[s|] c1];
    cbn [app uart_output map cstring_or_empty];
    rewrite concat_separator, (uart_output_print_trace_any_next rest 0 c1);
    reflexivity.
Qed.

Lemma conversions_print_trace (args : list JSValue) (k : nat) (c : JSContext) :
  conversions (print_trace k c args) = args.
Proof.
  revert k c; induction args as [|v rest IH]; intros k c; [reflexivity|].
  cbn [print_trace]. destruct (engine_ToCString c v) as [r c1].
  rewrite !conversions_app, IH. destruct k, r; reflexivity.
Qed.

Lemma gc_count_print_trace (args : list JSValue) (k : nat) (c : JSContext) :
  gc_count (print_trace k c args) = O.
Proof.
  revert k c; induction args as [|v rest IH]; intros k c; [reflexivity|].
  cbn [print_trace]. destruct (engine_ToCString c v) as [r c1].
  rewrite !gc_count_app, IH. destruct k, r; reflexivity.
Qed.

(** A call with exactly the arguments of the array. *)
Lemma js_print_all (this_val : JSValue) (args : list JSValue) (c : JSContext) :
  js_print this_val (Z.of_nat (List.length args)) args c =
    Some (JS_UNDEFINED, after_conversions c args,
          print_trace 0 c args ++ [Ev_uart_putc LF]).
Proof.
  rewrite js_print_run by (rewrite Nat2Z.id; lia).
  now rewrite Nat2Z.id, firstn_all.
Qed.

Lemma js_print_arg_fault (argv : list JSValue) (k : nat) (c : JSContext) :
  nth_error argv k = None ->
  js_print_arg argv (Z.of_nat k) c = None.
Proof.
  intros Hnone. unfold js_print_arg, bind, argv_get.
  assert (Hneg : (Z.of_nat k <? 0) = false) by (apply Z.ltb_ge; lia).
  destruct (negb (Z.of_nat k =? 0)); cbn [uart_putc emit ret];
    rewrite Hneg, Nat2Z.id, Hnone; reflexivity.
Qed.

Lemma for_loop_fault (argv : list JSValue) (n : nat) (c : JSContext) :
  (List.length argv < n)%nat ->
  for_loop n 0 (js_print_arg argv) c = None.
Proof.
  intros Hlt.
  replace n with (List.length argv + S (n - S (List.length argv)))%nat by lia.
  rewrite for_loop_split. unfold bind at 1.
  pose proof (for_loop_print argv (List.length argv) 0 c) as Hloop.
  cbn [Z.of_nat skipn Nat.add] in Hloop. rewrite Hloop by lia.
  cbn [for_loop]. unfold bind. rewrite Z.add_0_l.
  rewrite js_print_arg_fault; [reflexivity|].
  apply nth_error_None. lia.
Qed.

(** X1: a call of [print] whose array holds the [argc] arguments writes
    the results of the conversions joined by single spaces and then one
    newline, a failed conversion counting as the empty string: the
    separators are written all the same. *)
Theorem js_print_output (this_val : JSValue) (argc : Z) (argv : list JSValue)
    (c : JSContext) :
  (Z.to_nat argc <= List.length argv)%nat ->
  exists c' t,
    js_print this_val argc argv c = Some (JS_UNDEFINED, c', t) /\
    uart_output t =
      (String.concat (chr SP)
         (map cstring_or_empty (to_cstrings c (firstn (Z.to_nat argc) argv)))
       ++ chr LF)%string.
Proof.
  intros Hlen. rewrite js_print_run by assumption.
  eexists; eexists; split; [reflexivity|].
  rewrite uart_output_app, uart_output_print_trace_any. reflexivity.
Qed.

(** X2: a call of [print] whose array holds the [argc] arguments reads
    the slots 0 to [argc - 1] once each, in order, and hands each
    argument to the conversion exactly once, in order. *)
Theorem js_print_converts_in_order (this_val : JSValue) (argc : Z)
    (argv : list JSValue) (c : JSContext) :
  (Z.to_nat argc <= List.length argv)%nat ->
  exists c' t,
    js_print this_val argc argv c = Some (JS_UNDEFINED, c', t) /\
    conversions t = firstn (Z.to_nat argc) argv /\
    argv_reads t = map Z.of_nat (seq 0 (Z.to_nat argc)).
Proof.
  intros Hlen. rewrite js_print_run by assumption.
  eexists; eexists; split; [reflexivity|]. split.
  - rewrite conversions_app, conversions_print_trace. cbn [conversions].
    now rewrite app_nil_r.
  - rewrite argv_reads_app, argv_reads_print_trace. cbn [argv_reads].
    now rewrite app_nil_r, firstn_length_le.
Qed.

(** X3: printing the arguments [a] followed by [b] in one call is
    printing [a], then [b] from the context the first call leaves, with
    the newline of the first call replaced by a space: the same final
    context, and the two outputs joined by one space. *)
Theorem js_print_app (this_val : JSValue) (a b : list JSValue) (c : JSContext) :
  a <> [] -> b <> [] ->
  exists ca ta cb tb t oa ob,
    js_print this_val (Z.of_nat (List.length a)) a c
      = Some (JS_UNDEFINED, ca, ta) /\
    js_print this_val (Z.of_nat (List.length b)) b ca
      = Some (JS_UNDEFINED, cb, tb) /\
    js_print this_val (Z.of_nat (List.length (a ++ b))) (a ++ b) c
      = Some (JS_UNDEFINED, cb, t) /\
    uart_output ta = (oa ++ chr LF)%string /\
    uart_output tb = (ob ++ chr LF)%string /\
    uart_output t = (oa ++ chr SP ++ ob ++ chr LF)%string.
Proof.
  intros Ha Hb.
  exists (after_conversions c a), (print_trace 0 c a ++ [Ev_uart_putc LF]),
    (after_conversions (after_conversions c a) b),
    (print_trace 0 (after_conversions c a) b ++ [Ev_uart_putc LF]),
    (print_trace 0 c (a ++ b) ++ [Ev_uart_putc LF]).
  do 2 eexists. rewrite !js_print_all.
  split; [reflexivity|]. split; [reflexivity|].
  split; [now rewrite after_conversions_app|].
  rewrite !uart_output_app, !uart_output_print_trace_any.
  split; [reflexivity|]. split; [reflexivity|].
  rewrite to_cstrings_app, map_app, concat_separator_app.
  - rewrite !string_app_assoc. reflexivity.
  - intros H. apply (f_equal (@List.length string)) in H.
    rewrite length_map, to_cstrings_length in H. destruct a; [congruence|discriminate].
  - intros H. apply (f_equal (@List.length string)) in H.
    rewrite length_map, to_cstrings_length in H. destruct b; [congruence|discriminate].
Qed.

(** X4: [print] reads past the array it was given exactly when [argc]
    exceeds the number of slots; with at most that many arguments it
    returns, whatever the conversions do. *)
Theorem js_print_faults_iff (this_val : JSValue) (argc : Z)
    (argv : list JSValue) (c : JSContext) :
  js_print this_val argc argv c = None <->
  (List.length argv < Z.to_nat argc)%nat.
Proof.
  split.
  - intros Hnone.
    destruct (Nat.lt_ge_cases (List.length argv) (Z.to_nat argc)) as [Hlt|Hge];
      [exact Hlt|].
    rewrite js_print_run in Hnone by exact Hge. discriminate.
  - intros Hlt. unfold js_print, for_int, bind. rewrite Z.sub_0_r.
    now rewrite for_loop_fault.
Qed.

End PrintMore.

(** ** More on sequences of bridge calls *)

Section CallsMore.

Context {E : Engine}.

(** What a bridge function other than [print] leaves in the trace, for
    any [argc] and any array. *)
Lemma host_function_quiet (h : HostFunction) (this_val : JSValue) (argc : Z)
    (argv : list JSValue) (c : JSContext) :
  h <> H_print ->
  exists r c' t,
    host_function h this_val argc argv c = Some (r, c', t) /\
    uart_output t = "" /\ argv_reads t = [] /\ conversions t = [] /\
    gc_count t = (if is_gc h then 1 else 0)%nat.
Proof.
  intros Hh. destruct h; try congruence; cbn [host_function js_stdlib
    stdlib_date_now stdlib_performance_now stdlib_gc stdlib_load
    stdlib_setTimeout stdlib_clearTimeout is_gc].
  - do 3 eexists; repeat split.
  - do 3 eexists; repeat split.
  - do 3 eexists; repeat split.
  - unfold js_load, JS_ThrowInternalError.
    destruct (engine_ThrowInternalError c "load not implemented") as [v c1].
    do 3 eexists; repeat split.
  - do 3 eexists; repeat split.
  - do 3 eexists; repeat split.
Qed.

Lemma timer_call_value (h : HostFunction) (this_val : JSValue) (argc : Z)
    (argv : list JSValue) (c c' : JSContext) (r : JSValue) (t : list Event) :
  host_function h this_val argc argv c = Some (r, c', t) ->
  match h with
  | H_setTimeout => r = JS_Int 0
  | H_clearTimeout => r = JS_UNDEFINED
  | _ => True
  end.
Proof.
  destruct h; try exact (fun _ => I);
    cbn [host_function js_stdlib stdlib_setTimeout stdlib_clearTimeout];
    intros H; inversion H; reflexivity.
Qed.

(** X5: as long as [print] is not among them, the bridge functions may
    be called with any [argc] and any array, in any order: each call
    returns, nothing is written to the UART, no slot of [argv] is read and
    no value is converted to a string. *)
Theorem silent_without_print (calls : list Call) (c : JSContext) :
  Forall (fun k => call_fn k <> H_print) calls ->
  exists rs c' t,
    run_calls calls c = Some (rs, c', t) /\
    uart_output t = "" /\ argv_reads t = [] /\ conversions t = [].
Proof.
  intros Hcalls; revert c; induction Hcalls as [|k rest Hk _ IH]; intros c.
  - exists [], c, []. repeat split.
  - destruct (host_function_quiet (call_fn k) (call_this k) (call_argc k)
                (call_argv k) c Hk) as [r [c1 [t1 [Hrun [Hout [Hreads [Hconv _]]]]]]].
    destruct (IH c1) as [rs [c2 [t2 [Hrest [Hout2 [Hreads2 Hconv2]]]]]].
    exists ((call_fn k, r) :: rs), c2, (t1 ++ t2 ++ []).
    split; [cbn [run_calls]; unfold bind; now rewrite Hrun, Hrest|].
    rewrite app_nil_r, uart_output_app, argv_reads_app, conversions_app.
    rewrite Hout, Hout2, Hreads, Hreads2, Hconv, Hconv2. repeat split.
Qed.

(** X6: in any sequence of well-formed bridge calls, [JS_GC] is called
    once for each call of [gc] and never on behalf of another bridge
    function. *)
Theorem gc_once_per_call (calls : list Call) (c : JSContext) :
  Forall well_formed calls ->
  exists rs c' t,
    run_calls calls c = Some (rs, c', t) /\
    gc_count t = List.length (filter (fun k => is_gc (call_fn k)) calls).
Proof.
  intros Hwf; revert c; induction Hwf as [|k rest [_ Hlen] _ IH]; intros c.
  - exists [], c, []. split; reflexivity.
  - assert (Hcall : exists r c1 t1,
              host_function (call_fn k) (call_this k) (call_argc k)
                (call_argv k) c = Some (r, c1, t1) /\
              gc_count t1 = (if is_gc (call_fn k) then 1 else 0)%nat).
    { destruct (HostFunction_eq_print (call_fn k)) as [Hp|Hp].
      - rewrite Hp. cbn [host_function js_stdlib stdlib_print is_gc].
        rewrite js_print_run by assumption.
        do 3 eexists; split; [reflexivity|].
        now rewrite gc_count_app, gc_count_print_trace.
      - destruct (host_function_quiet (call_fn k) (call_this k) (call_argc k)
                    (call_argv k) c Hp) as [r [c1 [t1 [Hrun [_ [_ [_ Hgc]]]]]]].
        now exists r, c1, t1. }
    destruct Hcall as [r [c1 [t1 [Hrun Hgc]]]].
    destruct (IH c1) as [rs [c2 [t2 [Hrest Hgc2]]]].
    exists ((call_fn k, r) :: rs), c2, (t1 ++ t2 ++ []).
    split; [cbn [run_calls]; unfold bind; now rewrite Hrun, Hrest|].
    rewrite app_nil_r, gc_count_app, Hgc, Hgc2. cbn [filter].
    destruct (is_gc (call_fn k)); reflexivity.
Qed.

(** X7: timer handles.  In any sequence of well-formed bridge calls,
    every call of [setTimeout] returns the integer 0, whatever callback
    and delay it is given, so the handle does not tell one timer from
    another; and every call of [clearTimeout] returns Undefined, whatever
    handle it is given. *)
Theorem timer_handles (calls : list Call) (c : JSContext) :
  Forall well_formed calls ->
  exists rs c' t,
    run_calls calls c = Some (rs, c', t) /\
    map fst rs = map call_fn calls /\
    Forall (fun p => match fst p with
                     | H_setTimeout => snd p = JS_Int 0
                     | H_clearTimeout => snd p = JS_UNDEFINED
                     | _ => True
                     end) rs.
Proof.
  intros Hwf; revert c; induction Hwf as [|k rest [_ Hlen] _ IH]; intros c.
  - exists [], c, []. repeat split. constructor.
  - destruct (host_function_total (call_fn k) (call_this k) (call_argc k)
                (call_argv k) c Hlen) as [r [c1 [t1 Hrun]]].
    destruct (IH c1) as [rs [c2 [t2 [Hrest [Hfns Hvals]]]]].
    exists ((call_fn k, r) :: rs), c2, (t1 ++ t2 ++ []).
    split; [cbn [run_calls]; unfold bind; now rewrite Hrun, Hrest|].
    split; [cbn [map fst]; now rewrite Hfns|].
    constructor; [|exact Hvals]. cbn [fst snd].
    exact (timer_call_value _ _ _ _ _ _ _ _ Hrun).
Qed.

(** X8: the clock does not advance: in any sequence of well-formed bridge
    calls, whatever calls separate them, every value returned by [now]
    and [performanceNow] is the integer 0. *)
Theorem clock_constant (calls : list Call) (c : JSContext) :
  Forall well_formed calls ->
  exists rs c' t,
    run_calls calls c = Some (rs, c', t) /\
    Forall (fun v => v = JS_Int 0) (timestamps rs).
Proof.
  apply run_calls_total.
Qed.

End CallsMore.

(** ** More on the driver *)

Section DriverMore.

Context {E : Engine}.

(** X9: the life cycle of a run of the driver.  Either the context
    cannot be created: the status is 1, and after the creation attempt
    the only thing done is to write the failure message (no evaluation,
    nothing to free).  Or the status is 0: the context is created, the
    next call is [JS_Eval] on [js_code] with its length, the file name
    "<input>" and flags 0, and the last call is [JS_FreeContext], on both
    the exception and the normal path. *)
Theorem main_lifecycle (status : Z) (t : list Event) :
  main = Some (status, t) ->
  (status = 1 /\
   engine_NewContext js_memory (sizeof js_memory) = None /\
   t = [Ev_JS_NewContext js_memory (sizeof js_memory);
        Ev_uart_puts ("Failed to create JS context" ++ chr LF)%string]) \/
  (status = 0 /\
   exists ctx mid,
     engine_NewContext js_memory (sizeof js_memory) = Some ctx /\
     t = Ev_JS_NewContext js_memory (sizeof js_memory)
           :: Ev_JS_Eval js_code (strlen js_code) "<input>" 0
           :: mid ++ [Ev_JS_FreeContext]).
Proof.
  unfold main. destruct (engine_NewContext js_memory (sizeof js_memory)) as [ctx|].
  - destruct (main_eval ctx) as [[[u c'] t0]|] eqn:Heval; [|discriminate].
    intros H; inversion H; subst. right. split; [reflexivity|].
    unfold main_eval, JS_Eval, bind, emit in Heval.
    destruct (engine_Eval js_stdlib js_code (strlen js_code) "<input>" 0 ctx)
      as [[[result c1] t1]|]; [|discriminate].
    match type of Heval with
    | match ?m with _ => _ end = _ => destruct m as [[[u2 c2] t2]|]
    end; [|discriminate].
    inversion Heval; subst. exists ctx, (t1 ++ t2). split; reflexivity.
  - intros H; inversion H; subst. left. repeat split.
Qed.

(** The output of a run whose evaluation returned. *)
Lemma main_eval_report (ctx : JSContext) (result : JSValue) (c' : JSContext)
    (t : list Event) :
  engine_NewContext js_memory (sizeof js_memory) = Some ctx ->
  JS_Eval js_stdlib js_code (strlen js_code) "<input>" 0 ctx
    = Some (result, c', t) ->
  exists t',
    main = Some (0, t') /\
    uart_output t' =
      (uart_output t ++
       if JS_IsException result then
         "JS Exception: "
         ++ cstring_or_empty
              (fst (engine_ToCString (snd (engine_GetException c'))
                      (fst (engine_GetException c'))))
         ++ chr LF
       else
         match fst (engine_ToCString c' result) with
         | Some s => "Result: " ++ s ++ chr LF
         | None => ""
         end)%string.
Proof.
  intros Hctx Heval.
  unfold main, main_eval. rewrite Hctx. unfold bind at 1. rewrite Heval.
  destruct (JS_IsException result).
  - unfold bind, JS_GetException, JS_ToCString.
    cbn [uart_puts uart_putc emit ret].
    destruct (engine_GetException c') as [exception c1]. cbn [fst snd].
    destruct (engine_ToCString c1 exception) as [[s|] c2];
      (eexists; split; [reflexivity|]); cbn [uart_output fst cstring_or_empty];
      rewrite <- app_assoc, uart_output_app; f_equal.
  - unfold bind, JS_ToCString.
    destruct (engine_ToCString c' result) as [[s|] c1];
      (eexists; split; [reflexivity|]); cbn [uart_output fst];
      rewrite <- app_assoc, uart_output_app; f_equal.
Qed.

(** X10: what the driver reports after the evaluation.  On an uncaught
    exception: "JS Exception: ", the text of the exception fetched with
    [JS_GetException] (nothing when its conversion fails), and a newline,
    so the line is written in any case.  On normal completion: "Result: ",
    the text of the result and a newline, and nothing at all when the
    conversion of the result fails. *)
Theorem main_report (ctx : JSContext) (result : JSValue) (c' : JSContext)
    (t : list Event) :
  engine_NewContext js_memory (sizeof js_memory) = Some ctx ->
  JS_Eval js_stdlib js_code (strlen js_code) "<input>" 0 ctx
    = Some (result, c', t) ->
  exists t',
    main = Some (0, t') /\
    uart_output t' =
      (uart_output t ++
       if JS_IsException result then
         "JS Exception: "
         ++ cstring_or_empty
              (fst (engine_ToCString (snd (engine_GetException c'))
                      (fst (engine_GetException c'))))
         ++ chr LF
       else
         match fst (engine_ToCString c' result) with
         | Some s => "Result: " ++ s ++ chr LF
         | None => ""
         end)%string.
Proof.
  apply main_eval_report.
Qed.

End DriverMore.

(** ** More on the script and the whole run *)

Section ScriptMore.

Context {E : Engine}.

Lemma to_cstrings_nul_free (strs : list string) (c : JSContext) :
  (forall c s, nul_free s = true ->
               fst (engine_ToCString c (JS_String s)) = Some s) ->
  Forall (fun s => nul_free s = true) strs ->
  to_cstrings c (map JS_String strs) = map Some strs.
Proof.
  intros Hconv Hstrs; revert c; induction Hstrs as [|s strs Hs _ IH]; intros c;
    [reflexivity|].
  cbn [map to_cstrings].
  pose proof (Hconv c s Hs) as Hr.
  destruct (engine_ToCString c (JS_String s)) as [r c1].
  cbn [fst] in Hr. subst r. now rewrite IH.
Qed.

(** X12: on an engine that returns the content of a string value
    without the byte 0 as its C string, [print] of string values without
    the byte 0 writes their contents joined by single spaces and then
    one newline, from any context. *)
Theorem js_print_strings (this_val : JSValue) (strs : list string)
    (c : JSContext) :
  (forall c s, nul_free s = true ->
               fst (engine_ToCString c (JS_String s)) = Some s) ->
  Forall (fun s => nul_free s = true) strs ->
  exists c' t,
    js_print this_val (Z.of_nat (List.length strs)) (map JS_String strs) c
      = Some (JS_UNDEFINED, c', t) /\
    uart_output t = (String.concat (chr SP) strs ++ chr LF)%string.
Proof.
  intros Hconv Hstrs.
  rewrite <- (length_map JS_String strs), js_print_all.
  eexists; eexists; split; [reflexivity|].
  rewrite uart_output_app,
    (uart_output_print_trace _ _ _ (to_cstrings_nul_free strs c Hconv Hstrs)).
  reflexivity.
Qed.

Section Lawful.

Context (L : EngineLaws E).



End Lawful.

End ScriptMore.

(** ** Concrete runs for the further properties *)

(** [print("a", obj, "b")] with a failing conversion in the middle writes
    "a", two spaces, "b" and the newline. *)
Lemma js_print_output_witness :
  exists c' t,
    @js_print (Mock.engine Mock.small) JS_UNDEFINED 3
      [JS_String "a"; JS_Object 7; JS_String "b"] Mock.boot
      = Some (JS_UNDEFINED, c', t) /\
    uart_output t = ("a  b" ++ chr LF)%string.
Proof.
  apply (@js_print_output (Mock.engine Mock.small) JS_UNDEFINED 3
           [JS_String "a"; JS_Object 7; JS_String "b"] Mock.boot).
  simpl; lia.
Defined.

(** A call with two arguments over an array of three slots. *)
Lemma js_print_converts_in_order_witness :
  exists c' t,
    @js_print (Mock.engine Mock.small) JS_UNDEFINED 2
      [JS_Int 1; JS_Bool true; JS_NULL] Mock.boot
      = Some (JS_UNDEFINED, c', t) /\
    conversions t = [JS_Int 1; JS_Bool true] /\
    argv_reads t = [0; 1].
Proof.
  apply (@js_print_converts_in_order (Mock.engine Mock.small) JS_UNDEFINED 2
           [JS_Int 1; JS_Bool true; JS_NULL] Mock.boot).
  simpl; lia.
Defined.

(** [print(1, "x")] against [print(1)] and [print("x")]. *)
Lemma js_print_app_witness :
  exists ca ta cb tb t oa ob,
    @js_print (Mock.engine Mock.small) JS_UNDEFINED 1 [JS_Int 1] Mock.boot
      = Some (JS_UNDEFINED, ca, ta) /\
    @js_print (Mock.engine Mock.small) JS_UNDEFINED 1 [JS_String "x"] ca
      = Some (JS_UNDEFINED, cb, tb) /\
    @js_print (Mock.engine Mock.small) JS_UNDEFINED 2
      [JS_Int 1; JS_String "x"] Mock.boot = Some (JS_UNDEFINED, cb, t) /\
    uart_output ta = (oa ++ chr LF)%string /\
    uart_output tb = (ob ++ chr LF)%string /\
    uart_output t = (oa ++ chr SP ++ ob ++ chr LF)%string.
Proof.
  apply (@js_print_app (Mock.engine Mock.small) JS_UNDEFINED
           [JS_Int 1] [JS_String "x"] Mock.boot); discriminate.
Defined.

(** Calls without [print], one of them with an [argc] beyond its array. *)
Lemma silent_without_print_witness :
  exists rs c' t,
    @run_calls (Mock.engine Mock.small)
      [ {| call_fn := H_gc; call_this := JS_UNDEFINED; call_argc := 0;
           call_argv := [] |};
        {| call_fn := H_load; call_this := JS_UNDEFINED; call_argc := 3;
           call_argv := [JS_String "x.js"] |};
        {| call_fn := H_setTimeout; call_this := JS_UNDEFINED; call_argc := 0;
           call_argv := [] |} ] Mock.boot = Some (rs, c', t) /\
    uart_output t = "" /\ argv_reads t = [] /\ conversions t = [].
Proof.
  apply (@silent_without_print (Mock.engine Mock.small)).
  repeat constructor; discriminate.
Defined.

(** Two calls of [gc] among other calls. *)
Lemma gc_once_per_call_witness :
  exists rs c' t,
    @run_calls (Mock.engine Mock.small)
      [ {| call_fn := H_gc; call_this := JS_UNDEFINED; call_argc := 0;
           call_argv := [] |};
        {| call_fn := H_print; call_this := JS_UNDEFINED; call_argc := 1;
           call_argv := [JS_String "a"] |};
        {| call_fn := H_gc; call_this := JS_UNDEFINED; call_argc := 1;
           call_argv := [JS_NULL] |} ] Mock.boot = Some (rs, c', t) /\
    gc_count t = 2%nat.
Proof.
  apply (@gc_once_per_call (Mock.engine Mock.small)).
  repeat constructor; simpl; lia.
Defined.

(** Two timers set with different arguments, one of them cleared, around
    a [print]. *)
Lemma timer_handles_witness :
  exists rs c' t,
    @run_calls (Mock.engine Mock.small)
      [ {| call_fn := H_setTimeout; call_this := JS_UNDEFINED; call_argc := 2;
           call_argv := [JS_Object 1; JS_Int 1000] |};
        {| call_fn := H_print; call_this := JS_UNDEFINED; call_argc := 1;
           call_argv := [JS_String "a"] |};
        {| call_fn := H_setTimeout; call_this := JS_UNDEFINED; call_argc := 0;
           call_argv := [] |};
        {| call_fn := H_clearTimeout; call_this := JS_UNDEFINED; call_argc := 1;
           call_argv := [JS_Int 0] |} ] Mock.boot = Some (rs, c', t) /\
    map fst rs = [H_setTimeout; H_print; H_setTimeout; H_clearTimeout] /\
    Forall (fun p => match fst p with
                     | H_setTimeout => snd p = JS_Int 0
                     | H_clearTimeout => snd p = JS_UNDEFINED
                     | _ => True
                     end) rs.
Proof.
  apply (@timer_handles (Mock.engine Mock.small)).
  repeat constructor; simpl; lia.
Defined.

(** Clock reads around a [print] and a [gc]. *)
Lemma clock_constant_witness :
  exists rs c' t,
    @run_calls (Mock.engine Mock.small)
      [ {| call_fn := H_performance_now; call_this := JS_UNDEFINED;
           call_argc := 0; call_argv := [] |};
        {| call_fn := H_print; call_this := JS_UNDEFINED; call_argc := 1;
           call_argv := [JS_Int 1234567] |};
        {| call_fn := H_gc; call_this := JS_UNDEFINED; call_argc := 0;
           call_argv := [] |};
        {| call_fn := H_date_now; call_this := JS_UNDEFINED; call_argc := 0;
           call_argv := [] |} ] Mock.boot = Some (rs, c', t) /\
    Forall (fun v => v = JS_Int 0) (timestamps rs).
Proof.
  apply (@clock_constant (Mock.engine Mock.small)).
  repeat constructor; simpl; lia.
Defined.

(** The run on the engine whose evaluation runs out of arena: created,
    evaluated, freed. *)
Lemma main_lifecycle_witness :
  (0 = 1 /\
   Mock.new_context Mock.hungry js_memory (sizeof js_memory) = None /\
   [Ev_JS_NewContext js_memory (sizeof js_memory);
    Ev_JS_Eval js_code (strlen js_code) "<input>" 0;
    Ev_uart_puts "JS Exception: "; Ev_JS_GetException;
    Ev_JS_ToCString (JS_Object 0);
    Ev_uart_puts "InternalError: out of memory"; Ev_uart_putc LF;
    Ev_JS_FreeContext]
   = [Ev_JS_NewContext js_memory (sizeof js_memory);
      Ev_uart_puts ("Failed to create JS context" ++ chr LF)%string]) \/
  (0 = 0 /\
   exists ctx mid,
     Mock.new_context Mock.hungry js_memory (sizeof js_memory) = Some ctx /\
     [Ev_JS_NewContext js_memory (sizeof js_memory);
      Ev_JS_Eval js_code (strlen js_code) "<input>" 0;
      Ev_uart_puts "JS Exception: "; Ev_JS_GetException;
      Ev_JS_ToCString (JS_Object 0);
      Ev_uart_puts "InternalError: out of memory"; Ev_uart_putc LF;
      Ev_JS_FreeContext]
     = Ev_JS_NewContext js_memory (sizeof js_memory)
         :: Ev_JS_Eval js_code (strlen js_code) "<input>" 0
         :: mid ++ [Ev_JS_FreeContext]).
Proof.
  apply (@main_lifecycle (Mock.engine Mock.hungry) 0).
  reflexivity.
Defined.

(** The report of the run that ends in the out-of-memory exception. *)
Lemma main_report_witness :
  exists t',
    @main (Mock.engine Mock.hungry) = Some (0, t') /\
    uart_output t' = ("JS Exception: InternalError: out of memory" ++ chr LF)%string.
Proof.
  apply (@main_report (Mock.engine Mock.hungry) Mock.boot JS_EXCEPTION
           (snd (Mock.throw_internal_error Mock.boot "out of memory"))
           [Ev_JS_Eval js_code (strlen js_code) "<input>" 0]);
    reflexivity.
Defined.

(** [print("a", "b", "c")] on the reference engine. *)
Lemma js_print_strings_witness :
  exists c' t,
    @js_print (Mock.engine Mock.small) JS_UNDEFINED 3
      [JS_String "a"; JS_String "b"; JS_String "c"] Mock.boot
      = Some (JS_UNDEFINED, c', t) /\
    uart_output t = ("a b c" ++ chr LF)%string.
Proof.
  apply (@js_print_strings (Mock.engine Mock.small) JS_UNDEFINED
           ["a"; "b"; "c"] Mock.boot).
  - intros c s _. reflexivity.
  - repeat constructor.
Defined.

